(** * wand_probe: startup probe for WeMod/Wand under Wine

    A shallow embedding of [scripts/wand_probe.py] and the properties of its
    version-entry parser, its process snapshot, its debounced startup
    classifier and its run loop.

    Conventions of the embedding.
    - A Python [str] is a [string], one [ascii] per code point; the model
      covers text whose code points are below 256.  A [bytes] value is a
      [string] too, one [ascii] per byte.
    - A Python [float] holding a time or a duration in seconds is a
      rational ([Q]); subtraction and comparison are exact.  (Two readings
      of the wall clock taken during one probe are within a factor of two
      of each other, so their floating-point difference is exact as well.)
    - A raised exception is [Raise msg], [msg] being [str(exc)].
    - What the outside world answers (clock readings, the listing of /proc,
      the outcome of a download) is an explicit oracle argument; what the
      program does to the outside world is a list of [Event]s. *)

From Stdlib Require Import Bool Arith ZArith QArith Qround Lia Lqa List String Ascii.
From Stdlib Require Import DecimalString Permutation.
Import ListNotations.
Set Warnings "-notation-for-abbreviation".
Close Scope Q_scope.
Local Open Scope string_scope.
Local Open Scope nat_scope.

(** ** Python values *)

Module Py.

(** Outcome of a call that may raise. *)
Inductive result (A : Type) : Type :=
| Ret (a : A)
| Raise (msg : string).
Arguments Ret {A} a.
Arguments Raise {A} msg.

Definition code (c : ascii) : nat := nat_of_ascii c.

(** [str.isspace] on one character (code points below 256). *)
Definition isspace (c : ascii) : bool :=
  let n := code c in
  ((9 <=? n) && (n <=? 13)) || ((28 <=? n) && (n <=? 32))
  || (n =? 133) || (n =? 160).

(** [str.isdigit] on one character: the ASCII digits and the three
    superscript digits of Latin-1. *)
Definition isdigit_char (c : ascii) : bool :=
  let n := code c in
  ((48 <=? n) && (n <=? 57)) || (n =? 178) || (n =? 179) || (n =? 185).

(** [s.isdigit()]: every character is a digit and there is at least one. *)
Fixpoint all_digits (s : string) : bool :=
  match s with
  | EmptyString => true
  | String c s' => isdigit_char c && all_digits s'
  end.

Definition isdigit (s : string) : bool :=
  match s with
  | EmptyString => false
  | _ => all_digits s
  end.

(** [str.lower] on one character. *)
Definition lower_char (c : ascii) : ascii :=
  let n := code c in
  if ((65 <=? n) && (n <=? 90))
     || ((192 <=? n) && (n <=? 222) && negb (n =? 215))
  then ascii_of_nat (n + 32) else c.

Fixpoint lower (s : string) : string :=
  match s with
  | EmptyString => EmptyString
  | String c s' => String (lower_char c) (lower s')
  end.

Fixpoint lstrip (s : string) : string :=
  match s with
  | EmptyString => EmptyString
  | String c s' => if isspace c then lstrip s' else s
  end.

(** [rstrip] keeps a character when it is not white space or when
    something is kept after it. *)
Fixpoint rstrip (s : string) : string :=
  match s with
  | EmptyString => EmptyString
  | String c s' =>
      match rstrip s' with
      | EmptyString => if isspace c then EmptyString else String c EmptyString
      | r => String c r
      end
  end.

Definition strip (s : string) : string := rstrip (lstrip s).

(** [needle in s]. *)
Fixpoint contains (needle s : string) : bool :=
  prefix needle s
  || match s with
     | EmptyString => false
     | String _ s' => contains needle s'
     end.

(** [s.replace(a, b)] for one-character [a] and [b]. *)
Fixpoint replace (a b : ascii) (s : string) : string :=
  match s with
  | EmptyString => EmptyString
  | String c s' => String (if Ascii.eqb c a then b else c) (replace a b s')
  end.

(** [s.split(sep, 1)] for a one-character [sep]: [None] when [sep] does
    not occur, else the text before and after its first occurrence. *)
Fixpoint split_once (sep : ascii) (s : string) : option (string * string) :=
  match s with
  | EmptyString => None
  | String c s' =>
      if Ascii.eqb c sep then Some (EmptyString, s')
      else match split_once sep s' with
           | Some (a, b) => Some (String c a, b)
           | None => None
           end
  end.

(** [repr] of an [int]. *)
Definition repr_int (z : Z) : string := NilZero.string_of_int (Z.to_int z).

(** [c in s] for one character. *)
Fixpoint has_char (c : ascii) (s : string) : bool :=
  match s with
  | EmptyString => false
  | String d s' => Ascii.eqb d c || has_char c s'
  end.

End Py.

Import Py.

(** ** Version entries (lines 44-54) *)

Definition colon : ascii := ":"%char.

Definition known_kind (kind : string) : bool :=
  String.eqb kind "wand" || String.eqb kind "wemod".

Definition parse_version_entry (entry : string) : result (string * string) :=
  match split_once colon entry with
  | None =>
      Raise ("invalid version entry '" ++ entry ++ "', expected kind:version")
  | Some (kind, version) =>
      let kind := lower (strip kind) in
      let version := strip version in
      if negb (known_kind kind) then
        Raise ("invalid kind '" ++ kind ++ "' in '" ++ entry
               ++ "', expected wand or wemod")
      else if String.eqb version "" then
        Raise ("missing version in '" ++ entry ++ "'")
      else Ret (kind, version)
  end.

(** ** The outside world *)

(** One entry of the listing of /proc: its name, whether it is a
    directory, and what reading its [cmdline] file gives ([None] when the
    read raises, for instance because the process has exited). *)
Record ProcEntry : Type := {
  name : string;
  is_dir : bool;
  cmdline : option string
}.

(** What one iteration of the polling loop sees: the reading each
    [time.time()] call site returns when it is reached in that iteration,
    and the listing of /proc that the scan of that iteration walks.  The
    iteration that leaves the loop reads only [t_loop]; the scan after the
    loop (line 218) then walks its [proc]. *)
Record Poll : Type := {
  t_loop : Q;          (* line 190 *)
  proc : list ProcEntry;
  t_arm_renderer : Q;  (* line 195 *)
  t_arm_black : Q;     (* line 206 *)
  t_chk_renderer : Q;  (* line 210 *)
  t_chk_black : Q      (* line 213 *)
}.

(** What one call of [quick_probe] sees. *)
Record ProbeEnv : Type := {
  exe_exists : bool;             (* line 171 *)
  popen_error : option string;   (* [Some msg]: [subprocess.Popen] raises *)
  t_start : Q;                   (* line 185 *)
  polls : nat -> Poll
}.

(** What the handling of one requested version sees: whether fetching and
    unpacking raise, and the world of its probe. *)
Record VersionEnv : Type := {
  download_error : option string;
  install_error : option string;
  probe_env : ProbeEnv
}.

(** What the program does to the outside world. *)
Inductive Event : Type :=
| KillStray                              (* [kill_wemod_processes()] *)
| Download (kind version : string)       (* [download_if_needed] *)
| Install                                (* [install_nupkg] *)
| Launch (install_dir prefix_dir : string) (* the child is started *)
| KillChild                              (* [proc.kill()] *)
| Sleep (seconds : Q)
| Print (line : string).

(** ** Role counts (the dict built by [inspect_state]) *)

Record State : Type := {
  n_main : Z;
  n_renderer : Z;
  n_gpu : Z;
  n_utility : Z
}.

Definition repr_state (s : State) : string :=
  "{'main': " ++ repr_int (n_main s)
  ++ ", 'renderer': " ++ repr_int (n_renderer s)
  ++ ", 'gpu': " ++ repr_int (n_gpu s)
  ++ ", 'utility': " ++ repr_int (n_utility s) ++ "}".

Inductive Role : Type := RMain | RRenderer | RGpu | RUtility.

Definition Role_eqb (a b : Role) : bool :=
  match a, b with
  | RMain, RMain | RRenderer, RRenderer | RGpu, RGpu | RUtility, RUtility => true
  | _, _ => false
  end.

Definition bump (r : Role) (s : State) : State :=
  match r with
  | RMain => {| n_main := n_main s + 1; n_renderer := n_renderer s;
                n_gpu := n_gpu s; n_utility := n_utility s |}
  | RRenderer => {| n_main := n_main s; n_renderer := n_renderer s + 1;
                    n_gpu := n_gpu s; n_utility := n_utility s |}
  | RGpu => {| n_main := n_main s; n_renderer := n_renderer s;
               n_gpu := n_gpu s + 1; n_utility := n_utility s |}
  | RUtility => {| n_main := n_main s; n_renderer := n_renderer s;
                   n_gpu := n_gpu s; n_utility := n_utility s + 1 |}
  end%Z.

Definition count (r : Role) (s : State) : Z :=
  match r with
  | RMain => n_main s
  | RRenderer => n_renderer s
  | RGpu => n_gpu s
  | RUtility => n_utility s
  end.

(** ** Time *)

Definition Qlt_bool (a b : Q) : bool := negb (Qle_bool b a).

(** [f"{q:.0f}"]: the nearest integer, ties to even, with the sign of [q]. *)
Definition round_half_even (q : Q) : Z :=
  let f := Qfloor q in
  match Qcompare (q - inject_Z f) (1 # 2) with
  | Lt => f
  | Gt => (f + 1)%Z
  | Eq => if Z.even f then f else (f + 1)%Z
  end.

Definition fmt_0f (q : Q) : string :=
  let n := round_half_even q in
  if Qlt_bool q 0 then "-" ++ repr_int (Z.abs n) else repr_int n.

Section Probe.

(** [bytes.decode("utf-8", "ignore")], the codec of the Python library. *)
Variable decode_utf8_ignore : string -> string.

(** *** [inspect_state] (lines 134-160) *)

Definition nul : ascii := Ascii.zero.
Definition space : ascii := " "%char.

(** Line 147. *)
Definition cmd_text (raw : string) : string :=
  lower (decode_utf8_ignore (replace nul space raw)).

(** Lines 151-158. *)
Definition role_of (text : string) : Role :=
  if contains "--type=renderer" text then RRenderer
  else if contains "--type=gpu-process" text then RGpu
  else if contains "--type=utility" text then RUtility
  else RMain.

(** One turn of the [for] loop: [None] where the source says [continue]. *)
Definition classify (entry : ProcEntry) : option Role :=
  if negb (is_dir entry) || negb (isdigit (name entry)) then None
  else match cmdline entry with
       | None => None
       | Some raw =>
           if String.eqb raw "" then None
           else
             let text := cmd_text raw in
             if negb (contains "wand.exe" text)
                && negb (contains "wemod.exe" text)
             then None
             else Some (role_of text)
       end.

Definition scan_entry (state : State) (entry : ProcEntry) : State :=
  match classify entry with
  | None => state
  | Some r => bump r state
  end.

Definition empty_state : State :=
  {| n_main := 0; n_renderer := 0; n_gpu := 0; n_utility := 0 |}.

Definition inspect_state (listing : list ProcEntry) : State :=
  fold_left scan_entry listing empty_state.

(** The entry is counted, and counted as [r]. *)
Definition has_role (r : Role) (entry : ProcEntry) : bool :=
  match classify entry with
  | Some r' => Role_eqb r r'
  | None => false
  end.

(** The entry is counted. *)
Definition counted (entry : ProcEntry) : bool :=
  match classify entry with
  | Some _ => true
  | None => false
  end.

(** *** The polling loop of [quick_probe] (lines 190-219) *)

Definition Verdict : Type := (string * string)%type.

(** The two variables [renderer_since] and [black_since]. *)
Record Timers : Type := mkTimers {
  renderer_since : option Q;
  black_since : option Q
}.

(** Lines 186-187. *)
Definition unarmed : Timers := mkTimers None None.

(** The arm/disarm discipline of lines 193-197 and of lines 199-208. *)
Definition arm (cond : bool) (since : option Q) (now : Q) : option Q :=
  if cond then
    match since with
    | None => Some now
    | Some _ => since
    end
  else None.

Definition renderer_present (state : State) : bool := (0 <? n_renderer state)%Z.

Definition black_pattern (state : State) : bool :=
  ((0 <? n_main state) && (0 <? n_gpu state) && (0 <? n_utility state)
   && (n_renderer state =? 0))%Z.

(** Lines 193-208. *)
Definition update_timers (state : State) (p : Poll)
    (timers : Timers) : Timers :=
  {| renderer_since :=
       arm (renderer_present state) (renderer_since timers) (t_arm_renderer p);
     black_since :=
       arm (black_pattern state) (black_since timers) (t_arm_black p) |}.

(** [since and (now - since) >= threshold]: a timer that is [None] or
    zero is falsy, and then the clock is not read. *)
Definition crossed (since : option Q) (now threshold : Q) : bool :=
  match since with
  | None => false
  | Some t => negb (Qeq_bool t 0) && Qle_bool threshold (now - t)
  end.

Section Loop.

Variable env : ProbeEnv.
Variables observe_timeout_sec renderer_stable_sec black_pattern_sec : Q.

(** Lines 210-214: [Some] verdict where the source returns. *)
Definition evaluate (state : State) (p : Poll)
    (timers : Timers) : option Verdict :=
  if crossed (renderer_since timers) (t_chk_renderer p) renderer_stable_sec then
    Some ("STARTED", "renderer stable (state=" ++ repr_state state ++ ")")
  else if crossed (black_since timers) (t_chk_black p) black_pattern_sec then
    Some ("BLACK_PATTERN",
          "main+gpu+utility without renderer (state=" ++ repr_state state ++ ")")
  else None.

(** Line 190. *)
Definition in_budget (p : Poll) : bool :=
  Qlt_bool (t_loop p - t_start env) observe_timeout_sec.

(** The [while] loop from its [k]-th iteration on, the timers being
    [timers]; [None] when [fuel] iterations do not reach a [return]. *)
Fixpoint probe_loop (fuel k : nat) (timers : Timers)
    : option (Verdict * list Event) :=
  match fuel with
  | O => None
  | S fuel' =>
      let p := polls env k in
      if in_budget p then
        let state := inspect_state (proc p) in
        let timers := update_timers state p timers in
        match evaluate state p timers with
        | Some v => Some (v, [])
        | None =>
            match probe_loop fuel' (S k) timers with
            | Some (v, ev) => Some (v, Sleep (1 # 4) :: ev)
            | None => None
            end
        end
      else
        let state := inspect_state (proc p) in
        Some (("TIMEOUT",
               "no stable renderer within " ++ fmt_0f observe_timeout_sec
               ++ "s (state=" ++ repr_state state ++ ")"), [])
  end.

(** Lines 163-225. *)
Definition quick_probe (fuel : nat) (install_dir prefix_dir : string)
    : option (result Verdict * list Event) :=
  if negb (exe_exists env) then
    Some (Ret ("ERROR", "WeMod.exe missing after install"), [])
  else
    match popen_error env with
    | Some msg => Some (Raise msg, [])
    | None =>
        match probe_loop fuel 0 unarmed with
        | Some (v, ev) =>
            Some (Ret v,
                  (Launch install_dir prefix_dir :: ev
                   ++ [KillChild; KillStray])%list)
        | None => None
        end
    end.

(** *** The run of the loop, iteration by iteration *)

(** The snapshot of iteration [k]. *)
Definition state_at (k : nat) : State := inspect_state (proc (polls env k)).

(** The timers on entry to iteration [k], when the loop gets that far. *)
Fixpoint timers_before (k : nat) : Timers :=
  match k with
  | O => unarmed
  | S k' => update_timers (state_at k') (polls env k') (timers_before k')
  end.

(** The timers of iteration [k] once lines 193-208 have run. *)
Definition timers_at (k : nat) : Timers :=
  update_timers (state_at k) (polls env k) (timers_before k).

(** What lines 210-214 decide in iteration [k]. *)
Definition verdict_at (k : nat) : option Verdict :=
  evaluate (state_at k) (polls env k) (timers_at k).

Definition budget_at (k : nat) : bool :=
  in_budget (polls env k).

(** Iteration [k] runs and ends in the [sleep]. *)
Definition quiet (k : nat) : Prop :=
  budget_at k = true /\ verdict_at k = None.

Definition timeout_verdict (k : nat) : Verdict :=
  ("TIMEOUT",
   "no stable renderer within " ++ fmt_0f observe_timeout_sec
   ++ "s (state=" ++ repr_state (state_at k) ++ ")").

Definition sleeps (n : nat) : list Event := repeat (Sleep (1 # 4)) n.

End Loop.

End Probe.

(** ** [main] (lines 228-253) *)

Record Args : Type := {
  versions : list string;
  install_dir : string;
  prefix_dir : string;
  cache_dir : string;
  observe_timeout : Q;
  renderer_stable_sec : Q;
  black_pattern_sec : Q
}.

Definition comma : ascii := ","%char.
Definition semicolon : ascii := ";"%char.

Definition header : string := "kind,version,status,summary".

(** The line both [print] calls of the loop build. *)
Definition record_line (kind version status summary : string) : string :=
  kind ++ "," ++ version ++ "," ++ status ++ "," ++ replace comma semicolon summary.

(** Lines 231-233: the first entry that does not parse raises. *)
Fixpoint parse_versions (entries : list string) : result (list (string * string)) :=
  match entries with
  | [] => Ret []
  | entry :: rest =>
      match parse_version_entry entry with
      | Raise msg => Raise msg
      | Ret kv =>
          match parse_versions rest with
          | Raise msg => Raise msg
          | Ret kvs => Ret (kv :: kvs)
          end
      end
  end.

Section Main.

Variable decode_utf8_ignore : string -> string.
Variable args : Args.

(** Lines 240-249, the body of the [try]: [Raise] when one of the three
    calls raises, the events up to that point being kept. *)
Definition try_version (fuel : nat) (venv : VersionEnv) (kind version : string)
    : option (result unit * list Event) :=
  match download_error venv with
  | Some msg => Some (Raise msg, [Download kind version])
  | None =>
      match install_error venv with
      | Some msg => Some (Raise msg, [Download kind version; Install])
      | None =>
          match quick_probe decode_utf8_ignore (probe_env venv)
                  (observe_timeout args) (renderer_stable_sec args)
                  (black_pattern_sec args) fuel
                  (install_dir args) (prefix_dir args) with
          | None => None
          | Some (Raise msg, ev) =>
              Some (Raise msg, (Download kind version :: Install :: ev)%list)
          | Some (Ret (status, summary), ev) =>
              Some (Ret tt,
                    (Download kind version :: Install :: ev
                     ++ [Print (record_line kind version status summary)])%list)
          end
      end
  end.

(** Lines 238-251, one turn of the [for] loop. *)
Definition run_version (fuel : nat) (venv : VersionEnv) (kind version : string)
    : option (list Event) :=
  match try_version fuel venv kind version with
  | None => None
  | Some (Ret _, ev) => Some (KillStray :: ev)
  | Some (Raise msg, ev) =>
      Some (KillStray :: ev ++ [Print (record_line kind version "ERROR" msg)])%list
  end.

(** Lines 237-251; [world i] is what the [i]-th request sees. *)
Fixpoint run_versions (fuel : nat) (world : nat -> VersionEnv) (i : nat)
    (parsed_versions : list (string * string)) : option (list Event) :=
  match parsed_versions with
  | [] => Some []
  | (kind, version) :: rest =>
      match run_version fuel (world i) kind version with
      | None => None
      | Some ev =>
          match run_versions fuel world (S i) rest with
          | None => None
          | Some ev' => Some (ev ++ ev')%list
          end
      end
  end.

Definition main (fuel : nat) (world : nat -> VersionEnv)
    : option (result unit * list Event) :=
  match parse_versions (versions args) with
  | Raise msg => Some (Raise msg, [])
  | Ret parsed_versions =>
      match run_versions fuel world 0 parsed_versions with
      | None => None
      | Some ev => Some (Ret tt, (Print header :: ev ++ [KillStray])%list)
      end
  end.

(** The status and summary reported for a version: those of the first of
    the three calls of the [try] that raises, else those [quick_probe]
    returns. *)
Definition reports (fuel : nat) (venv : VersionEnv) (v : string * string) : Prop :=
  match download_error venv, install_error venv with
  | Some msg, _ => v = ("ERROR", msg)
  | None, Some msg => v = ("ERROR", msg)
  | None, None =>
      (exists ev,
         quick_probe decode_utf8_ignore (probe_env venv)
           (observe_timeout args) (renderer_stable_sec args)
           (black_pattern_sec args) fuel (install_dir args) (prefix_dir args)
         = Some (Ret v, ev))
      \/ (exists msg ev,
            quick_probe decode_utf8_ignore (probe_env venv)
              (observe_timeout args) (renderer_stable_sec args)
              (black_pattern_sec args) fuel (install_dir args) (prefix_dir args)
            = Some (Raise msg, ev)
            /\ v = ("ERROR", msg))
  end.

(** The record printed for a request and what is reported for it. *)
Definition record_of (request_verdict : (string * string) * (string * string))
    : string :=
  let '((kind, version), (status, summary)) := request_verdict in
  record_line kind version status summary.

End Main.

(** The lines printed, in order. *)
Fixpoint printed (ev : list Event) : list string :=
  match ev with
  | [] => []
  | Print line :: ev' => line :: printed ev'
  | _ :: ev' => printed ev'
  end.

(** ** Package names (lines 57-66) *)

Definition base : string := "https://storage-cdn.wemod.com/app/releases/stable/".

Definition url_for (kind version : string) : string :=
  if String.eqb kind "wand" then base ++ "Wand-" ++ version ++ "-full.nupkg"
  else base ++ "WeMod-" ++ version ++ "-full.nupkg".

(** Line 65, the name of the cached file. *)
Definition nupkg_name (kind version : string) : string :=
  (if String.eqb kind "wand" then "Wand" else "WeMod")
  ++ "-" ++ version ++ "-full.nupkg".

(** ** [download_if_needed] (lines 69-89) *)

(** The file system as the function sees it: the size of the file at a
    path, [None] where there is none. *)
Definition Files : Type := string -> option Z.

Definition write_file (fs : Files) (path : string) (size : Z) : Files :=
  fun p => if String.eqb p path then Some size else fs p.

(** What one call sees: whether [mkdir] raises, and how the run of curl
    ends, either with exit status 0 and an output file of some size or
    with an exception and whatever it left at the output path. *)
Inductive CurlRun : Type :=
| CurlDone (size : Z)
| CurlFailed (msg : string) (leftover : option Z).

Record DownloadEnv : Type := {
  mkdir_error : option string;
  curl_run : CurlRun
}.

Definition user_agent : string :=
  "Mozilla/5.0 (X11; Linux x86_64) AppleWebKit/537.36 (KHTML, like Gecko) Chrome/133.0.0.0 Safari/537.36".

Section Download.

(** [str(cache_dir / name)], the path arithmetic of [pathlib]. *)
Variable joinpath : string -> string -> string.

Definition cached_nupkg_path (cache_dir kind version : string) : string :=
  joinpath cache_dir (nupkg_name kind version).

(** Lines 76-84. *)
Definition curl_argv (kind version target : string) : list string :=
  ["curl"; "-fsSL"; "-A"; user_agent; url_for kind version; "-o"; target].

(** The result, the command lines run, and the files afterwards. *)
Definition download_if_needed (fs : Files) (denv : DownloadEnv)
    (cache_dir kind version : string)
    : result string * list (list string) * Files :=
  match mkdir_error denv with
  | Some msg => (Raise msg, [], fs)
  | None =>
      let target := cached_nupkg_path cache_dir kind version in
      let cached :=
        match fs target with
        | Some size => (0 <? size)%Z
        | None => false
        end in
      if cached then (Ret target, [], fs)
      else
        match curl_run denv with
        | CurlDone size =>
            (Ret target, [curl_argv kind version target],
             write_file fs target size)
        | CurlFailed msg leftover =>
            (Raise msg, [curl_argv kind version target],
             fun p => if String.eqb p target then leftover else fs p)
        end
  end.

End Download.

(** ** The payload of a package (lines 98-101 of [install_nupkg]) *)

(** [sorted] on names: insertion into a sorted list. *)
Fixpoint insert_name (x : string) (l : list string) : list string :=
  match l with
  | [] => [x]
  | y :: l' => if String.leb x y then x :: l else y :: insert_name x l'
  end.

Definition sorted (l : list string) : list string :=
  fold_right insert_name [] l.

(** [sorted((tmp / "lib").glob("net*"))], given the names in [lib]. *)
Definition net_roots (lib_names : list string) : list string :=
  sorted (filter (prefix "net") lib_names).

(** [net_root], or the [RuntimeError] of line 100. *)
Definition net_root (lib_names : list string) : result string :=
  match net_roots lib_names with
  | [] => Raise "no lib/net* payload in nupkg"
  | r :: _ => Ret r
  end.

(** ** [kill_wemod_processes] (lines 115-131) *)

(** The value of one ASCII digit. *)
Definition digit_value (c : ascii) : option Z :=
  let n := code c in
  if (48 <=? n) && (n <=? 57) then Some (Z.of_nat (n - 48)) else None.

Fixpoint int_digits (acc : Z) (s : string) : option Z :=
  match s with
  | EmptyString => Some acc
  | String c s' =>
      match digit_value c with
      | Some d => int_digits (10 * acc + d) s'
      | None => None
      end
  end.

(** [int(s)] for a string that passed [isdigit]: [None] where it raises
    [ValueError], which the superscript digits make it do. *)
Definition int_of_digits (s : string) : option Z :=
  match s with
  | EmptyString => None
  | _ => int_digits 0 s
  end.

Section Kill.

Variable decode_utf8_ignore : string -> string.

(** Lines 117-127: the entry reaches the [os.kill] of line 129. *)
Definition targeted (entry : ProcEntry) : bool :=
  if negb (is_dir entry) || negb (isdigit (name entry)) then false
  else match cmdline entry with
       | None => false
       | Some raw =>
           if String.eqb raw "" then false
           else
             let text := cmd_text decode_utf8_ignore raw in
             contains "wand.exe" text || contains "wemod.exe" text
       end.

(** The process numbers [os.kill(pid, 9)] is called with, in order; an
    [os.kill] that raises is passed over like an [int] that raises. *)
Fixpoint kill_wemod_processes (listing : list ProcEntry) : list Z :=
  match listing with
  | [] => []
  | entry :: rest =>
      if targeted entry then
        match int_of_digits (name entry) with
        | Some pid => pid :: kill_wemod_processes rest
        | None => kill_wemod_processes rest
        end
      else kill_wemod_processes rest
  end.

End Kill.

(** ** Reading the output *)

(** [s.split(sep)] for a one-character [sep]. *)
Fixpoint split_all (sep : ascii) (s : string) : list string :=
  match s with
  | EmptyString => [EmptyString]
  | String c s' =>
      if Ascii.eqb c sep then EmptyString :: split_all sep s'
      else match split_all sep s' with
           | field :: fields => String c field :: fields
           | [] => [String c EmptyString]
           end
  end.

(** The events are in order for a run that has a child alive or not: a
    child is started only when none is alive; while one is alive there are
    only sleeps, until it is killed, and the teardown helper follows at
    once; everything else happens while none is alive, and none is left
    alive at the end. *)
Fixpoint orderly (alive : bool) (ev : list Event) : bool :=
  match ev with
  | [] => negb alive
  | Launch _ _ :: ev' => negb alive && orderly true ev'
  | Sleep _ :: ev' => alive && orderly true ev'
  | KillChild :: ev' =>
      alive && match ev' with
               | KillStray :: _ => orderly false ev'
               | _ => false
               end
  | _ :: ev' => negb alive && orderly false ev'
  end.

(** The four statuses of a record. *)
Definition is_status (status : string) : Prop :=
  status = "STARTED" \/ status = "BLACK_PATTERN" \/ status = "TIMEOUT"
  \/ status = "ERROR".

(** ** Sample worlds *)

(** Paths put together with a slash. *)
Definition slash_join (dir name : string) : string := dir ++ "/" ++ name.

Definition no_files : Files := fun _ => None.


(** On pure ASCII bytes the codec is the identity. *)
Definition decode_ascii (raw : string) : string := raw.

Definition pid_entry (pid raw : string) : ProcEntry :=
  {| name := pid; is_dir := true; cmdline := Some raw |}.

(** A listing with a main process, a renderer, a gpu process, a utility
    process, a process that has just exited, a foreign process and a
    non-process entry. *)
Definition sample_listing : list ProcEntry :=
  [ pid_entry "100" ("wine" ++ String nul "C:\WeMod.exe");
    pid_entry "101" ("C:\WeMod.exe" ++ String nul "--type=renderer");
    pid_entry "102" ("C:\WEMOD.EXE" ++ String nul "--type=gpu-process");
    pid_entry "103" ("C:\Wand.exe" ++ String nul "--type=utility"
                      ++ String nul "--type=gpu-process");
    {| name := "104"; is_dir := true; cmdline := None |};
    pid_entry "105" "bash";
    {| name := "cpuinfo"; is_dir := false; cmdline := None |} ].

(** A clock that reads [1000 + k/4] seconds throughout iteration [k]:
    polls every 250 ms, each taking no time. *)
Definition tick (k : nat) : Q := Qmake (4000 + Z.of_nat k) 4.

Definition poll_at (listing : list ProcEntry) (k : nat) : Poll :=
  {| t_loop := tick k; proc := listing;
     t_arm_renderer := tick k; t_arm_black := tick k;
     t_chk_renderer := tick k; t_chk_black := tick k |}.

(** A probe whose child starts and whose [k]-th scan sees [listing k]. *)
Definition world_of (listing : nat -> list ProcEntry) : ProbeEnv :=
  {| exe_exists := true; popen_error := None; t_start := tick 0;
     polls := fun k => poll_at (listing k) k |}.

Definition main_only : list ProcEntry :=
  [ pid_entry "100" ("wine" ++ String nul "C:\WeMod.exe") ].

Definition with_renderer : list ProcEntry :=
  [ pid_entry "100" ("wine" ++ String nul "C:\WeMod.exe");
    pid_entry "101" ("C:\WeMod.exe" ++ String nul "--type=renderer") ].

Definition without_renderer : list ProcEntry :=
  [ pid_entry "100" ("wine" ++ String nul "C:\WeMod.exe");
    pid_entry "102" ("C:\WeMod.exe" ++ String nul "--type=gpu-process");
    pid_entry "103" ("C:\WeMod.exe" ++ String nul "--type=utility") ].

(** The renderer shows up in the third poll and stays. *)
Definition renderer_world : ProbeEnv :=
  world_of (fun k => if k <? 2 then main_only else with_renderer).

(** Main, gpu and utility from the first poll on, never a renderer. *)
Definition black_world : ProbeEnv := world_of (fun _ => without_renderer).

(** The renderer is there except in the ninth poll. *)
Definition renderer_gap_world : ProbeEnv :=
  world_of (fun k => if k =? 8 then main_only else with_renderer).

(** The black pattern holds except in the ninth poll. *)
Definition black_gap_world : ProbeEnv :=
  world_of (fun k => if k =? 8 then main_only else without_renderer).

(** The renderer comes and goes with every poll. *)
Definition flicker_world : ProbeEnv :=
  world_of (fun k => if Nat.even k then with_renderer else main_only).

(** Nothing of the application ever runs. *)
Definition idle_world : ProbeEnv := world_of (fun _ => []).

(** The executable is not there. *)
Definition missing_world : ProbeEnv :=
  {| exe_exists := false; popen_error := None; t_start := tick 0;
     polls := fun k => poll_at [] k |}.

(** A version that installs without its executable. *)
Definition missing_version : VersionEnv :=
  {| download_error := None; install_error := None; probe_env := missing_world |}.

(** Two requests: the download of the first fails, the probe of the second
    sees nothing of the application. *)
Definition two_requests : Args :=
  {| versions := ["wand:12.0.3"; "wemod:11.6.0"];
     install_dir := "/opt/wemod_bin"; prefix_dir := "/opt/wemod_prefix";
     cache_dir := "/tmp/wand-probe-cache";
     observe_timeout := 20; renderer_stable_sec := 2; black_pattern_sec := 2 |}.

Definition two_worlds (i : nat) : VersionEnv :=
  match i with
  | O => {| download_error := Some "curl failed, exit status 22";
            install_error := None; probe_env := idle_world |}
  | _ => {| download_error := None; install_error := None;
            probe_env := idle_world |}
  end.

(** * Properties *)

(** ** Version entries *)

Example parse_plain : parse_version_entry "wand:12.0.3" = Ret ("wand", "12.0.3").
Proof. reflexivity. Qed.

Example parse_padded_upper : parse_version_entry " WAND :1.0" = Ret ("wand", "1.0").
Proof. reflexivity. Qed.

Example parse_inner_colons : parse_version_entry "wemod:1:2:3" = Ret ("wemod", "1:2:3").
Proof. reflexivity. Qed.

Example parse_no_colon :
  parse_version_entry "wand" = Raise "invalid version entry 'wand', expected kind:version".
Proof. reflexivity. Qed.

Example parse_bad_kind :
  parse_version_entry "foo:1" = Raise "invalid kind 'foo' in 'foo:1', expected wand or wemod".
Proof. reflexivity. Qed.

Example parse_blank_version :
  parse_version_entry "wand:  " = Raise "missing version in 'wand:  '".
Proof. reflexivity. Qed.

Lemma split_once_no_sep (sep : ascii) (s : string) :
  has_char sep s = false -> split_once sep s = None.
Proof.
  induction s as [|c s IH]; simpl; [reflexivity|].
  destruct (Ascii.eqb c sep); simpl; [discriminate|].
  intros H. now rewrite IH.
Qed.

Lemma split_once_first (sep : ascii) (k v : string) :
  has_char sep k = false ->
  split_once sep (k ++ String sep v) = Some (k, v).
Proof.
  induction k as [|c k IH]; simpl.
  - intros _. now rewrite Ascii.eqb_refl.
  - destruct (Ascii.eqb c sep); simpl; [discriminate|].
    intros H. now rewrite IH.
Qed.


(** C10.  [parse_version_entry] splits at the first colon only: for an
    entry [k ++ ":" ++ v] with no colon in [k], the kind is [k] stripped and
    lowercased and the version is [v] stripped, whatever colons [v] holds;
    a version without surrounding white space comes back unchanged.  An
    entry without a colon, a kind other than wand and wemod, and a version
    that is empty once stripped each raise.  [" WAND :1.0"] is accepted. *)
Theorem parse_version_entry_first_colon :
  (forall entry, has_char colon entry = false ->
     parse_version_entry entry
     = Raise ("invalid version entry '" ++ entry ++ "', expected kind:version"))
  /\ (forall k v, has_char colon k = false ->
        known_kind (lower (strip k)) = true -> strip v <> "" ->
        parse_version_entry (k ++ ":" ++ v) = Ret (lower (strip k), strip v))
  /\ (forall k v, has_char colon k = false ->
        known_kind (lower (strip k)) = true -> v <> "" -> strip v = v ->
        parse_version_entry (k ++ ":" ++ v) = Ret (lower (strip k), v))
  /\ (forall k v, has_char colon k = false ->
        known_kind (lower (strip k)) = false ->
        exists msg, parse_version_entry (k ++ ":" ++ v) = Raise msg)
  /\ (forall k v, has_char colon k = false -> strip v = "" ->
        exists msg, parse_version_entry (k ++ ":" ++ v) = Raise msg)
  /\ parse_version_entry " WAND :1.0" = Ret ("wand", "1.0").
Proof.
  assert (accept : forall k v, has_char colon k = false ->
            known_kind (lower (strip k)) = true -> strip v <> "" ->
            parse_version_entry (k ++ ":" ++ v) = Ret (lower (strip k), strip v)).
  { intros k v Hk Hkind Hv. unfold parse_version_entry.
    change (k ++ ":" ++ v) with (k ++ String colon v).
    rewrite (split_once_first _ _ _ Hk).
    rewrite Hkind. simpl.
    destruct (String.eqb_spec (strip v) ""); [contradiction|reflexivity]. }
  repeat split.
  - intros entry H. unfold parse_version_entry.
    now rewrite (split_once_no_sep _ _ H).
  - exact accept.
  - intros k v Hk Hkind Hv Hs. rewrite <- Hs at 2. apply accept; trivial.
    now rewrite Hs.
  - intros k v Hk Hkind. unfold parse_version_entry.
    change (k ++ ":" ++ v) with (k ++ String colon v).
    rewrite (split_once_first _ _ _ Hk).
    rewrite Hkind. simpl. eauto.
  - intros k v Hk Hv. unfold parse_version_entry.
    change (k ++ ":" ++ v) with (k ++ String colon v).
    rewrite (split_once_first _ _ _ Hk). rewrite Hv.
    destruct (negb _); simpl; eauto.
Qed.

Lemma parse_version_entry_first_colon_witness :
  parse_version_entry "wand"
  = Raise "invalid version entry 'wand', expected kind:version"
  /\ parse_version_entry (" WeMod " ++ ":" ++ " 11:6:0 ") = Ret ("wemod", "11:6:0")
  /\ parse_version_entry ("wand" ++ ":" ++ "12:0") = Ret ("wand", "12:0")
  /\ (exists msg, parse_version_entry ("steam" ++ ":" ++ "1") = Raise msg)
  /\ (exists msg, parse_version_entry ("wand" ++ ":" ++ "  ") = Raise msg).
Proof.
  destruct parse_version_entry_first_colon as (H1 & H2 & H3 & H4 & H5 & _).
  split; [|split; [|split; [|split]]].
  - apply (H1 "wand"). reflexivity.
  - apply (H2 " WeMod " " 11:6:0 "); [reflexivity|reflexivity|discriminate].
  - apply (H3 "wand" "12:0"); [reflexivity|reflexivity|discriminate|reflexivity].
  - apply (H4 "steam" "1"); reflexivity.
  - apply (H5 "wand" "  "); reflexivity.
Defined.

(** ** The snapshot *)


Lemma count_bump (r r' : Role) (s : State) :
  count r (bump r' s) = (count r s + if Role_eqb r r' then 1 else 0)%Z.
Proof. destruct r, r'; simpl; lia. Qed.

Lemma length_filter_cons {A} (f : A -> bool) (a : A) (l : list A) :
  List.length (filter f (a :: l))
  = ((if f a then 1 else 0) + List.length (filter f l))%nat.
Proof. simpl. destruct (f a); reflexivity. Qed.

Section Snapshot.

Variable dec : string -> string.

Lemma count_scan (r : Role) (listing : list ProcEntry) (s : State) :
  count r (fold_left (scan_entry dec) listing s)
  = (count r s + Z.of_nat (List.length (filter (has_role dec r) listing)))%Z.
Proof.
  revert s. induction listing as [|e l IH]; intros s; simpl; [lia|].
  rewrite IH. unfold scan_entry, has_role.
  destruct (classify dec e) as [r'|]; [|lia].
  rewrite count_bump. destruct (Role_eqb r r'); simpl List.length; lia.
Qed.

Lemma counted_split (listing : list ProcEntry) :
  (List.length (filter (counted dec) listing)
   = List.length (filter (has_role dec RMain) listing)
     + List.length (filter (has_role dec RRenderer) listing)
     + List.length (filter (has_role dec RGpu) listing)
     + List.length (filter (has_role dec RUtility) listing))%nat.
Proof.
  induction listing as [|e l IH]; [reflexivity|].
  rewrite !length_filter_cons, IH. unfold counted, has_role.
  destruct (classify dec e) as [[]|]; cbn [Role_eqb]; lia.
Qed.

Lemma scan_skips (e : ProcEntry) (l1 l2 : list ProcEntry) :
  classify dec e = None ->
  inspect_state dec (l1 ++ e :: l2) = inspect_state dec (l1 ++ l2).
Proof.
  intros H. unfold inspect_state.
  rewrite !fold_left_app. simpl. unfold scan_entry at 2. now rewrite H.
Qed.

(** C8.  Every entry of the listing is put in at most one role: an entry
    is counted exactly when it is a directory with a numeric name whose
    command line could be read, is not empty and, lowercased, names
    [wand.exe] or [wemod.exe]; its role is then renderer if the text holds the renderer
    marker, else gpu if it holds the gpu-process marker, else utility if
    it holds the utility marker, else main.  Each count of the snapshot is
    the number of entries with that role, so the four counts are not
    negative and add up to the number of counted entries.  An entry whose
    command line cannot be read is not counted: the snapshot is the one
    the listing without it gives. *)
Theorem inspect_state_buckets :
  (forall entry r, classify dec entry = Some r <->
     is_dir entry = true /\ isdigit (name entry) = true
     /\ exists raw, cmdline entry = Some raw /\ raw <> ""
        /\ (contains "wand.exe" (cmd_text dec raw) = true
            \/ contains "wemod.exe" (cmd_text dec raw) = true)
        /\ r = (if contains "--type=renderer" (cmd_text dec raw) then RRenderer
                else if contains "--type=gpu-process" (cmd_text dec raw) then RGpu
                else if contains "--type=utility" (cmd_text dec raw) then RUtility
                else RMain))
  /\ (forall listing r,
        count r (inspect_state dec listing)
        = Z.of_nat (List.length (filter (has_role dec r) listing)))
  /\ (forall listing,
        let s := inspect_state dec listing in
        (0 <= n_main s /\ 0 <= n_renderer s /\ 0 <= n_gpu s /\ 0 <= n_utility s
         /\ n_main s + n_renderer s + n_gpu s + n_utility s
            = Z.of_nat (List.length (filter (counted dec) listing)))%Z)
  /\ (forall entry l1 l2, cmdline entry = None ->
        classify dec entry = None
        /\ inspect_state dec (l1 ++ entry :: l2) = inspect_state dec (l1 ++ l2)).
Proof.
  assert (cnt : forall listing r,
            count r (inspect_state dec listing)
            = Z.of_nat (List.length (filter (has_role dec r) listing))).
  { intros listing r. unfold inspect_state.
    rewrite count_scan. destruct r; reflexivity. }
  split; [|split; [exact cnt|split]].
  - intros entry r. unfold classify. split.
    + destruct (is_dir entry); simpl; [|discriminate].
      destruct (isdigit (name entry)); simpl; [|discriminate].
      destruct (cmdline entry) as [raw|]; [|discriminate].
      destruct (String.eqb_spec raw ""); [discriminate|].
      destruct (contains "wand.exe" (cmd_text dec raw)) eqn:Hw; simpl.
      * intros [= <-]. repeat split. exists raw. repeat split; auto.
      * destruct (contains "wemod.exe" (cmd_text dec raw)) eqn:Hm; simpl;
          [|discriminate].
        intros [= <-]. repeat split. exists raw. repeat split; auto.
    + intros (Hd & Hn & raw & Hc & Hne & Hexe & ->).
      rewrite Hd, Hn, Hc. simpl.
      destruct (String.eqb_spec raw ""); [contradiction|].
      destruct Hexe as [Hexe|Hexe]; rewrite Hexe; simpl;
        [|rewrite andb_false_r]; reflexivity.
  - intros listing s.
    pose proof (cnt listing RMain) as Hm.
    pose proof (cnt listing RRenderer) as Hr.
    pose proof (cnt listing RGpu) as Hg.
    pose proof (cnt listing RUtility) as Hu.
    pose proof (counted_split listing) as Hs.
    simpl in Hm, Hr, Hg, Hu. subst s. lia.
  - intros entry l1 l2 H.
    assert (Hc : classify dec entry = None).
    { unfold classify. rewrite H.
      destruct (negb _ || negb _); reflexivity. }
    split; [exact Hc|]. now apply scan_skips.
Qed.

End Snapshot.

Example inspect_sample :
  inspect_state decode_ascii sample_listing
  = {| n_main := 1; n_renderer := 1; n_gpu := 2; n_utility := 0 |}.
Proof. reflexivity. Qed.

Lemma inspect_state_buckets_witness :
  classify decode_ascii (pid_entry "101" "WeMod.exe --type=renderer --type=utility")
  = Some RRenderer
  /\ (n_renderer (inspect_state decode_ascii sample_listing) = 1)%Z
  /\ inspect_state decode_ascii
       ([pid_entry "100" "wand.exe"]
        ++ {| name := "104"; is_dir := true; cmdline := None |}
        :: [pid_entry "105" "wemod.exe"])
     = inspect_state decode_ascii
         ([pid_entry "100" "wand.exe"] ++ [pid_entry "105" "wemod.exe"]).
Proof.
  destruct (inspect_state_buckets decode_ascii) as (H1 & H2 & _ & H4).
  split; [|split].
  - apply (H1 (pid_entry "101" "WeMod.exe --type=renderer --type=utility")
             RRenderer).
    repeat split. exists "WeMod.exe --type=renderer --type=utility".
    repeat split; [discriminate|right; reflexivity].
  - change (count RRenderer (inspect_state decode_ascii sample_listing) = 1%Z).
    rewrite (H2 sample_listing RRenderer). reflexivity.
  - apply (H4 {| name := "104"; is_dir := true; cmdline := None |}). reflexivity.
Defined.

(** ** The debounce timers *)

Example fmt_0f_20 : fmt_0f 20 = "20".
Proof. reflexivity. Qed.

Example fmt_0f_ties : fmt_0f (5 # 2) = "2" /\ fmt_0f (7 # 2) = "4".
Proof. split; reflexivity. Qed.

Example fmt_0f_negative : fmt_0f (- (2 # 5)) = "-0".
Proof. reflexivity. Qed.

Lemma crossed_true (since : option Q) (now threshold : Q) :
  crossed since now threshold = true
  <-> exists t, since = Some t /\ ~ (t == 0)%Q /\ (threshold <= now - t)%Q.
Proof.
  unfold crossed. destruct since as [t|].
  - rewrite andb_true_iff, negb_true_iff, Qle_bool_iff. split.
    + intros [Hz Hle]. exists t. repeat split; trivial.
      intros Heq. apply Qeq_bool_iff in Heq. congruence.
    + intros (t' & [= <-] & Hz & Hle). split; trivial.
      destruct (Qeq_bool t 0) eqn:E; trivial.
      apply Qeq_bool_iff in E. contradiction.
  - split; [discriminate|]. intros (t & H & _). discriminate.
Qed.

Lemma crossed_false_early (t now threshold : Q) :
  (now - t < threshold)%Q -> crossed (Some t) now threshold = false.
Proof.
  intros H. destruct (crossed (Some t) now threshold) eqn:E; trivial.
  apply crossed_true in E. destruct E as (t' & [= <-] & _ & Hle). lra.
Qed.

Lemma crossed_zero (t now threshold : Q) :
  (t == 0)%Q -> crossed (Some t) now threshold = false.
Proof.
  intros H. unfold crossed. apply Qeq_bool_iff in H. now rewrite H.
Qed.

Lemma black_excludes_renderer (s : State) :
  black_pattern s = true -> renderer_present s = false.
Proof.
  unfold black_pattern, renderer_present.
  rewrite !andb_true_iff. intros (_ & H). apply Z.eqb_eq in H. rewrite H.
  reflexivity.
Qed.

Lemma renderer_excludes_black (s : State) :
  renderer_present s = true -> black_pattern s = false.
Proof.
  intros H. destruct (black_pattern s) eqn:E; trivial.
  apply black_excludes_renderer in E. congruence.
Qed.

(** After lines 193-208 at most one of the two timers is armed. *)
Lemma update_timers_exclusive (s : State) (p : Poll) (timers : Timers) :
  renderer_since (update_timers s p timers) = None \/ black_since (update_timers s p timers) = None.
Proof.
  unfold update_timers, arm. simpl.
  destruct (renderer_present s) eqn:E; [right|left; reflexivity].
  now rewrite (renderer_excludes_black _ E).
Qed.

Section Debounce.

Variable dec : string -> string.
Variable env : ProbeEnv.
Variables observe_timeout_sec renderer_stable_sec black_pattern_sec : Q.

Local Notation state_at := (state_at dec env).
Local Notation timers_before := (timers_before dec env).
Local Notation timers_at := (timers_at dec env).
Local Notation verdict_at :=
  (verdict_at dec env renderer_stable_sec black_pattern_sec).
Local Notation budget_at := (budget_at env observe_timeout_sec).
Local Notation quiet :=
  (quiet dec env observe_timeout_sec renderer_stable_sec black_pattern_sec).
Local Notation timeout_verdict := (timeout_verdict dec env observe_timeout_sec).
Local Notation evaluate := (evaluate renderer_stable_sec black_pattern_sec).

Local Notation loop :=
  (probe_loop dec env observe_timeout_sec renderer_stable_sec black_pattern_sec).

Lemma loop_eq (fuel k : nat) (timers : Timers) :
  loop (S fuel) k timers
  = if budget_at k then
      match evaluate (state_at k)
              (polls env k) (update_timers (state_at k) (polls env k) timers) with
      | Some v => Some (v, [])
      | None =>
          match loop fuel (S k) (update_timers (state_at k) (polls env k) timers) with
          | Some (v, ev) => Some (v, Sleep (1 # 4) :: ev)
          | None => None
          end
      end
    else Some (timeout_verdict k, []).
Proof. reflexivity. Qed.

Lemma loop_quiet (fuel k : nat) :
  quiet k ->
  loop (S fuel) k (timers_before k)
  = match loop fuel (S k) (timers_before (S k)) with
    | Some (v, ev) => Some (v, Sleep (1 # 4) :: ev)
    | None => None
    end.
Proof.
  intros [Hb Hv]. rewrite loop_eq, Hb. unfold verdict_at, timers_at in Hv.
  rewrite Hv. reflexivity.
Qed.

Lemma loop_verdict (fuel k : nat) (v : Verdict) :
  budget_at k = true -> verdict_at k = Some v ->
  loop (S fuel) k (timers_before k) = Some (v, []).
Proof.
  intros Hb Hv. rewrite loop_eq, Hb. unfold verdict_at, timers_at in Hv.
  rewrite Hv. reflexivity.
Qed.

Lemma loop_timeout (fuel k : nat) (timers : Timers) :
  budget_at k = false ->
  loop (S fuel) k timers = Some (timeout_verdict k, []).
Proof.
  intros Hb. rewrite loop_eq, Hb. reflexivity.
Qed.

(** Iterations [k .. k+n-1] all end in the [sleep]: the loop is then at
    iteration [k+n], [n] sleeps later. *)
Lemma loop_skip (n fuel k : nat) :
  (forall j, k <= j < k + n -> quiet j) ->
  loop (n + fuel) k (timers_before k)
  = match loop fuel (k + n) (timers_before (k + n)) with
    | Some (v, ev) => Some (v, (sleeps n ++ ev)%list)
    | None => None
    end.
Proof.
  revert k. induction n as [|n IH]; intros k H.
  - rewrite Nat.add_0_r. simpl. destruct (loop fuel k _) as [[v ev]|]; reflexivity.
  - cbn [Nat.add]. rewrite loop_quiet by (apply H; lia).
    rewrite IH by (intros j Hj; apply H; lia).
    replace (S k + n) with (k + S n) by lia.
    destruct (loop fuel (k + S n) _) as [[v ev]|]; reflexivity.
Qed.

(** More fuel does not change a result. *)
Lemma loop_more_fuel (fuel extra k : nat) (timers : Timers) r :
  loop fuel k timers = Some r -> loop (fuel + extra) k timers = Some r.
Proof.
  revert k timers r. induction fuel as [|fuel IH]; intros k timers r; [discriminate|].
  cbn [Nat.add]. rewrite !loop_eq.
  destruct (budget_at k); [|trivial].
  destruct (evaluate _ _ _); [trivial|].
  destruct (loop fuel _ _) as [[v ev]|] eqn:E; [|discriminate].
  now rewrite (IH _ _ _ E).
Qed.

(** The loop returns as soon as the clock is seen past the budget. *)
Lemma loop_returns (d k : nat) (timers : Timers) :
  budget_at (k + d) = false ->
  exists r, loop (S d) k timers = Some r.
Proof.
  revert k timers. induction d as [|d IH]; intros k timers H.
  - rewrite Nat.add_0_r in H. rewrite loop_timeout by trivial. eauto.
  - rewrite loop_eq. destruct (budget_at k); [|eauto].
    destruct (evaluate _ _ _); [eauto|].
    destruct (IH (S k) (update_timers (state_at k) (polls env k) timers))
      as [[v ev] E].
    { now replace (S k + d) with (k + S d) by lia. }
    rewrite E. eauto.
Qed.

(** Whatever the loop returns was decided in some iteration, all earlier
    ones having ended in the [sleep]. *)
Lemma loop_decided (fuel k : nat) (v : Verdict) (ev : list Event) :
  loop fuel k (timers_before k) = Some (v, ev) ->
  exists m, k <= m < k + fuel
    /\ (forall j, k <= j < m -> quiet j)
    /\ ((budget_at m = true /\ verdict_at m = Some v)
        \/ (budget_at m = false /\ v = timeout_verdict m))
    /\ ev = sleeps (m - k).
Proof.
  revert k v ev. induction fuel as [|fuel IH]; intros k v ev; [discriminate|].
  destruct (budget_at k) eqn:Hb.
  - destruct (verdict_at k) as [v'|] eqn:Hv.
    + rewrite (loop_verdict _ _ _ Hb Hv). intros [= <- <-].
      exists k. rewrite Nat.sub_diag. repeat split; try lia; auto.
    + rewrite loop_quiet by (split; trivial).
      destruct (loop fuel (S k) _) as [[v' ev']|] eqn:E; [|discriminate].
      intros [= <- <-]. destruct (IH _ _ _ E) as (m & Hm & Hq & Hd & Hev).
      exists m. repeat split; try lia; trivial.
      * destruct (Nat.eq_dec j k) as [->|]; [assumption|apply Hq; lia].
      * destruct (Nat.eq_dec j k) as [->|]; [assumption|apply Hq; lia].
      * rewrite Hev. replace (m - k) with (S (m - S k)) by lia. reflexivity.
  - rewrite loop_timeout by trivial. intros [= <- <-].
    exists k. rewrite Nat.sub_diag. repeat split; try lia; auto.
Qed.

(** *** What the timers hold *)

Lemma timers_before_S (k : nat) : timers_before (S k) = timers_at k.
Proof. reflexivity. Qed.

Lemma renderer_timer_eq (k : nat) :
  renderer_since (timers_at k)
  = arm (renderer_present (state_at k)) (renderer_since (timers_before k))
      (t_arm_renderer (polls env k)).
Proof. reflexivity. Qed.

Lemma black_timer_eq (k : nat) :
  black_since (timers_at k)
  = arm (black_pattern (state_at k)) (black_since (timers_before k))
      (t_arm_black (polls env k)).
Proof. reflexivity. Qed.

Lemma renderer_timer_gap (k : nat) :
  renderer_present (state_at k) = false -> renderer_since (timers_at k) = None.
Proof. intros H. now rewrite renderer_timer_eq, H. Qed.

Lemma black_timer_gap (k : nat) :
  black_pattern (state_at k) = false -> black_since (timers_at k) = None.
Proof. intros H. now rewrite black_timer_eq, H. Qed.

(** The timer is unarmed on entry to iteration [i] when the loop starts
    there or the snapshot before had the condition false. *)
Lemma renderer_timer_entry (i : nat) :
  (forall i', i = S i' -> renderer_present (state_at i') = false) ->
  renderer_since (timers_before i) = None.
Proof.
  destruct i as [|i']; [reflexivity|]. intros H.
  rewrite timers_before_S. apply renderer_timer_gap. now apply H.
Qed.

Lemma black_timer_entry (i : nat) :
  (forall i', i = S i' -> black_pattern (state_at i') = false) ->
  black_since (timers_before i) = None.
Proof.
  destruct i as [|i']; [reflexivity|]. intros H.
  rewrite timers_before_S. apply black_timer_gap. now apply H.
Qed.

(** While the condition holds from iteration [i] on, the timer keeps the
    reading it was armed with in iteration [i]. *)
Lemma renderer_timer_run (i k : nat) :
  i <= k -> renderer_since (timers_before i) = None ->
  (forall j, i <= j <= k -> renderer_present (state_at j) = true) ->
  renderer_since (timers_at k) = Some (t_arm_renderer (polls env i)).
Proof.
  intros Hik H0. induction Hik as [|k Hik IH]; intros Hrun.
  - rewrite renderer_timer_eq, H0, (Hrun i) by lia. reflexivity.
  - rewrite renderer_timer_eq, timers_before_S, (Hrun (S k)) by lia.
    rewrite IH by (intros j Hj; apply Hrun; lia). reflexivity.
Qed.

Lemma black_timer_run (i k : nat) :
  i <= k -> black_since (timers_before i) = None ->
  (forall j, i <= j <= k -> black_pattern (state_at j) = true) ->
  black_since (timers_at k) = Some (t_arm_black (polls env i)).
Proof.
  intros Hik H0. induction Hik as [|k Hik IH]; intros Hrun.
  - rewrite black_timer_eq, H0, (Hrun i) by lia. reflexivity.
  - rewrite black_timer_eq, timers_before_S, (Hrun (S k)) by lia.
    rewrite IH by (intros j Hj; apply Hrun; lia). reflexivity.
Qed.

(** The first index of [i .. j] at which a test succeeds. *)
Lemma first_between (P : nat -> bool) (n i : nat) :
  P (i + n) = true ->
  exists d, i <= d <= i + n /\ P d = true /\ forall k, i <= k < d -> P k = false.
Proof.
  revert i. induction n as [|n IH]; intros i H.
  - rewrite Nat.add_0_r in H. exists i. repeat split; try lia; trivial.
  - destruct (P i) eqn:E.
    + exists i. repeat split; try lia; trivial.
    + destruct (IH (S i)) as (d & Hd & HP & Hfirst).
      { now replace (S i + n) with (i + S n) by lia. }
      exists d. repeat split; try lia; trivial.
      intros k Hk. destruct (Nat.eq_dec k i) as [->|]; [trivial|apply Hfirst; lia].
Qed.

Lemma verdict_started (k : nat) (t : Q) :
  renderer_since (timers_at k) = Some t ->
  crossed (Some t) (t_chk_renderer (polls env k)) renderer_stable_sec = true ->
  verdict_at k
  = Some ("STARTED", "renderer stable (state=" ++ repr_state (state_at k) ++ ")").
Proof.
  intros Ht Hc. unfold verdict_at, evaluate. now rewrite Ht, Hc.
Qed.

(** *** Verdicts of the whole probe *)

Local Notation quick_probe :=
  (quick_probe dec env observe_timeout_sec renderer_stable_sec black_pattern_sec).

Lemma quick_probe_launched (fuel : nat) (install_dir prefix_dir : string) :
  exe_exists env = true -> popen_error env = None ->
  quick_probe fuel install_dir prefix_dir
  = match loop fuel 0 unarmed with
    | Some (v, ev) =>
        Some (Ret v, (Launch install_dir prefix_dir :: ev ++ [KillChild; KillStray])%list)
    | None => None
    end.
Proof. intros He Hp. unfold quick_probe. now rewrite He, Hp. Qed.

Lemma probe_decides_at (d : nat) (v : Verdict) :
  (forall k, k < d -> quiet k) -> budget_at d = true -> verdict_at d = Some v ->
  forall fuel, d < fuel -> loop fuel 0 unarmed = Some (v, sleeps d).
Proof.
  intros Hq Hb Hv fuel Hf.
  replace fuel with (d + S (fuel - S d)) by lia.
  change unarmed with (timers_before 0) at 1.
  rewrite loop_skip by (intros j Hj; apply Hq; lia).
  cbn [Nat.add]. rewrite (loop_verdict _ _ _ Hb Hv). now rewrite app_nil_r.
Qed.

Lemma probe_times_out_at (n : nat) :
  (forall k, k < n -> quiet k) -> budget_at n = false ->
  forall fuel, n < fuel -> loop fuel 0 unarmed = Some (timeout_verdict n, sleeps n).
Proof.
  intros Hq Hb fuel Hf.
  replace fuel with (n + S (fuel - S n)) by lia.
  change unarmed with (timers_before 0) at 1.
  rewrite loop_skip by (intros j Hj; apply Hq; lia).
  cbn [Nat.add]. rewrite (loop_timeout _ _ _ Hb). now rewrite app_nil_r.
Qed.

(** C1.  Let the renderer count be positive in the snapshots of iterations
    [i .. j], the renderer timer being unarmed on entry to [i] and armed
    there with a non-zero clock reading, let the reading of line 210 in
    iteration [j] be at least [renderer_stable_sec] past that arm time, and
    let no iteration before [i] reach a verdict or the end of the budget,
    the budget lasting through [j].  Then [quick_probe] returns STARTED, in
    an iteration [d] of [i .. j], and the detail shows the snapshot of
    iteration [d]. *)
Theorem renderer_stable_started (i j : nat) (install_dir prefix_dir : string) :
  exe_exists env = true -> popen_error env = None ->
  i <= j ->
  (forall k, k < i -> quiet k) ->
  (forall i', i = S i' -> renderer_present (state_at i') = false) ->
  (forall k, i <= k <= j ->
     budget_at k = true /\ renderer_present (state_at k) = true) ->
  ~ (t_arm_renderer (polls env i) == 0)%Q ->
  (renderer_stable_sec
   <= t_chk_renderer (polls env j) - t_arm_renderer (polls env i))%Q ->
  exists d, i <= d <= j /\
    forall fuel, d < fuel ->
      quick_probe fuel install_dir prefix_dir
      = Some (Ret ("STARTED",
                   "renderer stable (state=" ++ repr_state (state_at d) ++ ")"),
              (Launch install_dir prefix_dir :: sleeps d
               ++ [KillChild; KillStray])%list).
Proof.
  intros He Hp Hij Hpre Hentry Hrun Hnz Hcross.
  set (t0 := t_arm_renderer (polls env i)) in *.
  set (P := fun k => crossed (Some t0) (t_chk_renderer (polls env k)) renderer_stable_sec).
  assert (HPj : P (i + (j - i)) = true).
  { replace (i + (j - i)) with j by lia. apply crossed_true. eauto. }
  destruct (first_between P _ _ HPj) as (d & Hd & HPd & Hfirst).
  replace (i + (j - i)) with j in Hd by lia.
  assert (Htimer : forall k, i <= k <= j -> renderer_since (timers_at k) = Some t0).
  { intros k Hk. apply renderer_timer_run; [lia| |].
    - now apply renderer_timer_entry.
    - intros m Hm. apply Hrun. lia. }
  exists d. split; [exact Hd|]. intros fuel Hf.
  rewrite quick_probe_launched by assumption.
  rewrite (probe_decides_at d
             ("STARTED", "renderer stable (state=" ++ repr_state (state_at d) ++ ")"));
    trivial.
  - intros k Hk. destruct (Nat.lt_ge_cases k i) as [Hlt|Hge]; [now apply Hpre|].
    split; [apply Hrun; lia|].
    unfold verdict_at, evaluate.
    rewrite (Htimer k) by lia. fold (P k). rewrite Hfirst by lia.
    rewrite black_timer_gap; [reflexivity|].
    apply renderer_excludes_black. apply Hrun. lia.
  - apply Hrun. lia.
  - apply (verdict_started d t0); [apply Htimer; lia|exact HPd].
Qed.

(** C2.  Let the black pattern (main, gpu and utility present, no renderer)
    hold in the snapshots of iterations [i .. j], the black timer being
    unarmed on entry to [i] and armed there with a non-zero clock reading,
    let the reading of line 213 in iteration [j] be at least
    [black_pattern_sec] past that arm time, and let no iteration before [i]
    reach a verdict or the end of the budget, the budget lasting through
    [j].  Then [quick_probe] returns BLACK_PATTERN, in an iteration [d] of
    [i .. j], and the detail shows the snapshot of iteration [d]. *)
Theorem black_pattern_stable (i j : nat) (install_dir prefix_dir : string) :
  exe_exists env = true -> popen_error env = None ->
  i <= j ->
  (forall k, k < i -> quiet k) ->
  (forall i', i = S i' -> black_pattern (state_at i') = false) ->
  (forall k, i <= k <= j ->
     budget_at k = true /\ black_pattern (state_at k) = true) ->
  ~ (t_arm_black (polls env i) == 0)%Q ->
  (black_pattern_sec
   <= t_chk_black (polls env j) - t_arm_black (polls env i))%Q ->
  exists d, i <= d <= j /\
    forall fuel, d < fuel ->
      quick_probe fuel install_dir prefix_dir
      = Some (Ret ("BLACK_PATTERN",
                   "main+gpu+utility without renderer (state="
                   ++ repr_state (state_at d) ++ ")"),
              (Launch install_dir prefix_dir :: sleeps d
               ++ [KillChild; KillStray])%list).
Proof.
  intros He Hp Hij Hpre Hentry Hrun Hnz Hcross.
  set (t0 := t_arm_black (polls env i)) in *.
  set (P := fun k => crossed (Some t0) (t_chk_black (polls env k)) black_pattern_sec).
  assert (HPj : P (i + (j - i)) = true).
  { replace (i + (j - i)) with j by lia. apply crossed_true. eauto. }
  destruct (first_between P _ _ HPj) as (d & Hd & HPd & Hfirst).
  replace (i + (j - i)) with j in Hd by lia.
  assert (Htimer : forall k, i <= k <= j -> black_since (timers_at k) = Some t0).
  { intros k Hk. apply black_timer_run; [lia| |].
    - now apply black_timer_entry.
    - intros m Hm. apply Hrun. lia. }
  assert (Hren : forall k, i <= k <= j -> renderer_since (timers_at k) = None).
  { intros k Hk. apply renderer_timer_gap, black_excludes_renderer, Hrun. lia. }
  exists d. split; [exact Hd|]. intros fuel Hf.
  rewrite quick_probe_launched by assumption.
  rewrite (probe_decides_at d
             ("BLACK_PATTERN",
              "main+gpu+utility without renderer (state="
              ++ repr_state (state_at d) ++ ")")); trivial.
  - intros k Hk. destruct (Nat.lt_ge_cases k i) as [Hlt|Hge]; [now apply Hpre|].
    split; [apply Hrun; lia|].
    unfold verdict_at, evaluate.
    rewrite (Hren k), (Htimer k) by lia. fold (P k). now rewrite Hfirst by lia.
  - apply Hrun. lia.
  - unfold verdict_at, evaluate.
    rewrite (Hren d), (Htimer d) by lia. fold (P d). now rewrite HPd.
Qed.

(** C5.  Let the budget last through iterations [0 .. n-1] and be seen
    exhausted at the top of iteration [n], and let neither timer, whenever
    armed with a non-zero reading, have reached its threshold at its check
    in any of those iterations.  Then [quick_probe] returns TIMEOUT, and the
    detail shows the snapshot taken after the loop. *)
Theorem no_verdict_timeout (n : nat) (install_dir prefix_dir : string) :
  exe_exists env = true -> popen_error env = None ->
  (forall k, k < n -> budget_at k = true) ->
  (forall k t, k < n -> renderer_since (timers_at k) = Some t -> ~ (t == 0)%Q ->
     (t_chk_renderer (polls env k) - t < renderer_stable_sec)%Q) ->
  (forall k t, k < n -> black_since (timers_at k) = Some t -> ~ (t == 0)%Q ->
     (t_chk_black (polls env k) - t < black_pattern_sec)%Q) ->
  budget_at n = false ->
  forall fuel, n < fuel ->
    quick_probe fuel install_dir prefix_dir
    = Some (Ret ("TIMEOUT",
                 "no stable renderer within " ++ fmt_0f observe_timeout_sec
                 ++ "s (state=" ++ repr_state (state_at n) ++ ")"),
            (Launch install_dir prefix_dir :: sleeps n
             ++ [KillChild; KillStray])%list).
Proof.
  intros He Hp Hb Hr Hk Hout fuel Hf.
  rewrite quick_probe_launched by assumption.
  rewrite (probe_times_out_at n); trivial.
  intros k Hlt. split; [now apply Hb|].
  unfold verdict_at, evaluate.
  assert (Er : crossed (renderer_since (timers_at k)) (t_chk_renderer (polls env k))
                 renderer_stable_sec = false).
  { destruct (crossed (renderer_since (timers_at k)) _ _) eqn:E; trivial.
    apply crossed_true in E. destruct E as (t & Ht & Hz & Hle).
    specialize (Hr k t Hlt Ht Hz). lra. }
  assert (Eb : crossed (black_since (timers_at k)) (t_chk_black (polls env k))
                 black_pattern_sec = false).
  { destruct (crossed (black_since (timers_at k)) _ _) eqn:E; trivial.
    apply crossed_true in E. destruct E as (t & Ht & Hz & Hle).
    specialize (Hk k t Hlt Ht Hz). lra. }
  now rewrite Er, Eb.
Qed.

(** *** A gap resets the debounce *)

Lemma not_started_early (k : nat) :
  (forall t, renderer_since (timers_at k) = Some t ->
     (t_chk_renderer (polls env k) - t < renderer_stable_sec)%Q) ->
  forall d, verdict_at k <> Some ("STARTED", d).
Proof.
  intros H d. unfold verdict_at, evaluate.
  destruct (renderer_since (timers_at k)) as [t|] eqn:E.
  - rewrite crossed_false_early by now apply H.
    destruct (crossed _ _ _); discriminate.
  - simpl. destruct (crossed _ _ _); discriminate.
Qed.

Lemma not_black_early (k : nat) :
  (forall t, black_since (timers_at k) = Some t ->
     (t_chk_black (polls env k) - t < black_pattern_sec)%Q) ->
  forall d, verdict_at k <> Some ("BLACK_PATTERN", d).
Proof.
  intros H d. unfold verdict_at, evaluate.
  destruct (crossed (renderer_since (timers_at k)) _ _); [discriminate|].
  destruct (black_since (timers_at k)) as [t|] eqn:E.
  - rewrite crossed_false_early by now apply H. discriminate.
  - discriminate.
Qed.

(** A status the loop returns within [n] iterations was decided by lines
    210-214 in one of them, unless it is TIMEOUT. *)
Lemma loop_status (status : string) (n fuel : nat) (v : Verdict) (ev : list Event) :
  status <> "TIMEOUT" ->
  (forall k d, k < n -> verdict_at k <> Some (status, d)) ->
  fuel <= n -> loop fuel 0 unarmed = Some (v, ev) -> fst v <> status.
Proof.
  intros Hs Hno Hf Hl.
  change unarmed with (timers_before 0) in Hl.
  destruct (loop_decided _ _ _ _ Hl) as (m & Hm & _ & [[_ Hv]|[_ ->]] & _).
  - intros <-. apply (Hno m (snd v)); [lia|]. now destruct v.
  - simpl. congruence.
Qed.

Lemma renderer_gap_resets (a n : nat) (eps : Q) :
  (0 < eps)%Q ->
  (forall k, k < a ->
     renderer_present (state_at k) = true
     /\ (t_chk_renderer (polls env k) - t_arm_renderer (polls env 0)
         <= renderer_stable_sec - eps)%Q) ->
  renderer_present (state_at a) = false ->
  (forall k, a < k < n ->
     renderer_present (state_at k) = true
     /\ (t_chk_renderer (polls env k) - t_arm_renderer (polls env (S a))
         <= renderer_stable_sec - eps)%Q) ->
  forall k d, k < n -> verdict_at k <> Some ("STARTED", d).
Proof.
  intros Heps H1 Hgap H2 k d Hk. apply not_started_early. intros t Ht.
  destruct (Nat.lt_trichotomy k a) as [Hlt|[->|Hgt]].
  - rewrite (renderer_timer_run 0 k) in Ht; [|lia|reflexivity|].
    + injection Ht as <-. destruct (H1 k Hlt) as [_ Hle]. lra.
    + intros j Hj. apply H1. lia.
  - rewrite renderer_timer_gap in Ht by assumption. discriminate.
  - rewrite (renderer_timer_run (S a) k) in Ht; [|lia| |].
    + injection Ht as <-. destruct (H2 k) as [_ Hle]; [lia|lra].
    + rewrite timers_before_S. now apply renderer_timer_gap.
    + intros j Hj. apply H2. lia.
Qed.

Lemma black_gap_resets (a n : nat) (eps : Q) :
  (0 < eps)%Q ->
  (forall k, k < a ->
     black_pattern (state_at k) = true
     /\ (t_chk_black (polls env k) - t_arm_black (polls env 0)
         <= black_pattern_sec - eps)%Q) ->
  black_pattern (state_at a) = false ->
  (forall k, a < k < n ->
     black_pattern (state_at k) = true
     /\ (t_chk_black (polls env k) - t_arm_black (polls env (S a))
         <= black_pattern_sec - eps)%Q) ->
  forall k d, k < n -> verdict_at k <> Some ("BLACK_PATTERN", d).
Proof.
  intros Heps H1 Hgap H2 k d Hk. apply not_black_early. intros t Ht.
  destruct (Nat.lt_trichotomy k a) as [Hlt|[->|Hgt]].
  - rewrite (black_timer_run 0 k) in Ht; [|lia|reflexivity|].
    + injection Ht as <-. destruct (H1 k Hlt) as [_ Hle]. lra.
    + intros j Hj. apply H1. lia.
  - rewrite black_timer_gap in Ht by assumption. discriminate.
  - rewrite (black_timer_run (S a) k) in Ht; [|lia| |].
    + injection Ht as <-. destruct (H2 k) as [_ Hle]; [lia|lra].
    + rewrite timers_before_S. now apply black_timer_gap.
    + intros j Hj. apply H2. lia.
Qed.

(** C3.  Let a condition hold in the snapshots of iterations [0 .. a-1],
    fail in the snapshot of iteration [a] and hold again in those of
    iterations [a+1 .. n-1], each of the two runs lasting at most
    [threshold - eps] from its arm reading to any of its checks, with
    [eps > 0].  Then lines 210-214 return no STARTED (for the renderer
    condition; no BLACK_PATTERN for the black pattern) in any of the
    iterations [0 .. n-1], and the loop returns none within [n]
    iterations, although the two runs together may last longer than the
    threshold. *)
Theorem gap_resets_debounce (a n : nat) (eps : Q) :
  (0 < eps)%Q ->
  ((forall k, k < a ->
      renderer_present (state_at k) = true
      /\ (t_chk_renderer (polls env k) - t_arm_renderer (polls env 0)
          <= renderer_stable_sec - eps)%Q) ->
   renderer_present (state_at a) = false ->
   (forall k, a < k < n ->
      renderer_present (state_at k) = true
      /\ (t_chk_renderer (polls env k) - t_arm_renderer (polls env (S a))
          <= renderer_stable_sec - eps)%Q) ->
   (forall k d, k < n -> verdict_at k <> Some ("STARTED", d))
   /\ (forall fuel v ev, fuel <= n ->
         loop fuel 0 unarmed = Some (v, ev) -> fst v <> "STARTED"))
  /\ ((forall k, k < a ->
         black_pattern (state_at k) = true
         /\ (t_chk_black (polls env k) - t_arm_black (polls env 0)
             <= black_pattern_sec - eps)%Q) ->
      black_pattern (state_at a) = false ->
      (forall k, a < k < n ->
         black_pattern (state_at k) = true
         /\ (t_chk_black (polls env k) - t_arm_black (polls env (S a))
             <= black_pattern_sec - eps)%Q) ->
      (forall k d, k < n -> verdict_at k <> Some ("BLACK_PATTERN", d))
      /\ (forall fuel v ev, fuel <= n ->
            loop fuel 0 unarmed = Some (v, ev) -> fst v <> "BLACK_PATTERN")).
Proof.
  intros Heps. split; intros H1 Hgap H2.
  - assert (Hno := renderer_gap_resets a n eps Heps H1 Hgap H2).
    split; [exact Hno|]. intros fuel v ev.
    apply (loop_status "STARTED" n); [discriminate|exact Hno].
  - assert (Hno := black_gap_resets a n eps Heps H1 Hgap H2).
    split; [exact Hno|]. intros fuel v ev.
    apply (loop_status "BLACK_PATTERN" n); [discriminate|exact Hno].
Qed.

(** *** Lines 210-214 on their own *)

(** C4.  When both timers are armed with non-zero readings and each has
    reached its threshold at its check, lines 210-214 return STARTED: the
    renderer test comes first. *)
Theorem renderer_check_first (state : State) (p : Poll) (tr tb : Q) :
  ~ (tr == 0)%Q -> ~ (tb == 0)%Q ->
  (renderer_stable_sec <= t_chk_renderer p - tr)%Q ->
  (black_pattern_sec <= t_chk_black p - tb)%Q ->
  evaluate state p (mkTimers (Some tr) (Some tb))
  = Some ("STARTED", "renderer stable (state=" ++ repr_state state ++ ")").
Proof.
  intros Hr Hb Hcr Hcb. unfold evaluate. cbn [renderer_since black_since].
  assert (E : crossed (Some tr) (t_chk_renderer p) renderer_stable_sec = true)
    by (apply crossed_true; eauto).
  now rewrite E.
Qed.

(** C9.  A timer whose arm reading is zero counts as unarmed in lines
    210-214, whatever the clock and the threshold: the verdict is the one
    an unarmed timer gives, so with the other timer unarmed there is no
    verdict in that iteration. *)
Theorem zero_arm_time_is_unarmed (state : State) (p : Poll) (t : Q)
    (other : option Q) :
  (t == 0)%Q ->
  evaluate state p (mkTimers (Some t) other) = evaluate state p (mkTimers None other)
  /\ evaluate state p (mkTimers other (Some t)) = evaluate state p (mkTimers other None)
  /\ evaluate state p (mkTimers (Some t) None) = None
  /\ evaluate state p (mkTimers None (Some t)) = None.
Proof.
  intros Hz. unfold evaluate. cbn [renderer_since black_since].
  rewrite !(crossed_zero t) by exact Hz. simpl. repeat split; reflexivity.
Qed.

End Debounce.

(** ** The run *)

Lemma printed_app (a b : list Event) :
  printed (a ++ b) = (printed a ++ printed b)%list.
Proof.
  induction a as [|e a IH]; [reflexivity|].
  destruct e; simpl; rewrite IH; reflexivity.
Qed.

Section Run.

Variable dec : string -> string.
Variable args : Args.

Local Notation probe venv fuel :=
  (quick_probe dec (probe_env venv) (observe_timeout args)
     (renderer_stable_sec args) (black_pattern_sec args) fuel
     (install_dir args) (prefix_dir args)).

Lemma printed_probe_loop env ot rs bs (fuel k : nat) timers v ev :
  probe_loop dec env ot rs bs fuel k timers = Some (v, ev) -> printed ev = [].
Proof.
  revert k timers v ev. induction fuel as [|fuel IH]; intros k timers v ev;
    [discriminate|].
  rewrite loop_eq. destruct (budget_at _ _ _); [|now intros [= <- <-]].
  destruct (evaluate _ _ _ _ _); [now intros [= <- <-]|].
  destruct (probe_loop _ _ _ _ _ fuel _ _) as [[v' ev']|] eqn:E; [|discriminate].
  intros [= <- <-]. simpl. eapply IH, E.
Qed.

Lemma printed_probe (venv : VersionEnv) (fuel : nat) r ev :
  probe venv fuel = Some (r, ev) -> printed ev = [].
Proof.
  unfold quick_probe. destruct (negb _); [now intros [= <- <-]|].
  destruct (popen_error _); [now intros [= <- <-]|].
  destruct (probe_loop _ _ _ _ _ _ _ _) as [[v ev']|] eqn:E; [|discriminate].
  intros [= <- <-]. simpl. rewrite printed_app, (printed_probe_loop _ _ _ _ _ _ _ _ _ E).
  reflexivity.
Qed.

(** The probe returns once the clock is seen past the budget. *)
Lemma probe_returns (venv : VersionEnv) (m fuel : nat) :
  budget_at (probe_env venv) (observe_timeout args) m = false -> m < fuel ->
  exists r ev, probe venv fuel = Some (r, ev).
Proof.
  intros Hb Hf. unfold quick_probe.
  destruct (negb _); [eauto|]. destruct (popen_error _); [eauto|].
  destruct (loop_returns dec (probe_env venv) (observe_timeout args)
              (renderer_stable_sec args) (black_pattern_sec args) m 0 unarmed Hb)
    as [[v ev] E].
  apply (loop_more_fuel _ _ _ _ _ _ (fuel - S m)) in E.
  replace (S m + (fuel - S m)) with fuel in E by lia.
  rewrite E. eauto.
Qed.

(** One turn of the loop of [main] prints one record, that of its request. *)
Lemma run_version_record (fuel : nat) (venv : VersionEnv) (kind version : string) :
  (exists r ev, probe venv fuel = Some (r, ev)) ->
  exists ev v,
    run_version dec args fuel venv kind version = Some ev
    /\ reports dec args fuel venv v
    /\ printed ev = [record_of ((kind, version), v)].
Proof.
  intros (r & pev & Hp). unfold run_version, try_version, reports.
  destruct (download_error venv) as [msg|].
  { exists [KillStray; Download kind version; Print (record_line kind version "ERROR" msg)],
      ("ERROR", msg). repeat split. }
  destruct (install_error venv) as [msg|].
  { exists [KillStray; Download kind version; Install;
            Print (record_line kind version "ERROR" msg)], ("ERROR", msg).
    repeat split. }
  rewrite Hp. pose proof (printed_probe _ _ _ _ Hp) as Hpr.
  destruct r as [[status summary]|msg].
  - eexists _, (status, summary). split; [reflexivity|]. split; [eauto|].
    simpl. now rewrite printed_app, Hpr.
  - eexists _, ("ERROR", msg). split; [reflexivity|]. split; [eauto|].
    simpl. now rewrite printed_app, Hpr.
Qed.

Lemma run_versions_records (fuel : nat) (world : nat -> VersionEnv)
    (requests : list (string * string)) (i : nat) :
  (forall j, j < List.length requests ->
     exists r ev, probe (world (i + j)) fuel = Some (r, ev)) ->
  exists ev verdicts,
    run_versions dec args fuel world i requests = Some ev
    /\ List.length verdicts = List.length requests
    /\ (forall j, j < List.length requests ->
          reports dec args fuel (world (i + j)) (nth j verdicts ("", "")))
    /\ printed ev = map record_of (combine requests verdicts).
Proof.
  revert i. induction requests as [|[kind version] rest IH]; intros i H.
  - exists [], []. repeat split. intros j Hj. inversion Hj.
  - destruct (run_version_record fuel (world i) kind version) as (ev & v & Hev & Hv & Hpr).
    { specialize (H 0). rewrite Nat.add_0_r in H. apply H. simpl. lia. }
    destruct (IH (S i)) as (ev' & vs & Hev' & Hlen & Hvs & Hpr').
    { intros j Hj. replace (S i + j) with (i + S j) by lia. apply H. simpl. lia. }
    exists (ev ++ ev')%list, (v :: vs). cbn [run_versions]. rewrite Hev, Hev'.
    repeat split.
    + simpl. now rewrite Hlen.
    + intros [|j] Hj.
      * now rewrite Nat.add_0_r.
      * replace (i + S j) with (S i + j) by lia. apply Hvs. simpl in Hj. lia.
    + rewrite printed_app, Hpr, Hpr'. reflexivity.
Qed.

(** A bound on finitely many deadlines. *)
Lemma common_bound (P : nat -> nat -> Prop) (n : nat) :
  (forall i, i < n -> exists m, P i m) ->
  exists bound, forall i, i < n -> exists m, m < bound /\ P i m.
Proof.
  induction n as [|n IH]; intros H.
  - exists 0. intros i Hi. inversion Hi.
  - destruct IH as [b Hb]; [intros i Hi; apply H; lia|].
    destruct (H n) as [m Hm]; [lia|].
    exists (Nat.max b (S m)). intros i Hi.
    destruct (Nat.eq_dec i n) as [->|].
    + exists m. split; [lia|trivial].
    + destruct (Hb i) as (m' & Hlt & HP); [lia|]. exists m'. split; [lia|trivial].
Qed.

(** C7.  When every entry parses and, for each request, the clock of its
    probe is at some point seen past the budget, [main] returns and prints
    the header and then exactly one record per request, in input order,
    each with the kind and version of its request.  The record of a request
    whose download, installation or probe raises is an ERROR record carrying
    the message, and the run goes on with the next request; otherwise the
    record carries the status and summary [quick_probe] returned. *)
Theorem one_record_per_request (world : nat -> VersionEnv)
    (requests : list (string * string)) :
  parse_versions (versions args) = Ret requests ->
  (forall i, i < List.length requests ->
     exists m, budget_at (probe_env (world i)) (observe_timeout args) m = false) ->
  exists fuel0, forall fuel, fuel0 <= fuel ->
    exists ev verdicts,
      main dec args fuel world = Some (Ret tt, ev)
      /\ List.length verdicts = List.length requests
      /\ (forall i, i < List.length requests ->
            reports dec args fuel (world i) (nth i verdicts ("", "")))
      /\ printed ev = header :: map record_of (combine requests verdicts).
Proof.
  intros Hparse Hterm.
  destruct (common_bound _ _ Hterm) as [bound Hbound].
  exists bound. intros fuel Hfuel.
  destruct (run_versions_records fuel world requests 0) as (ev & vs & Hev & Hlen & Hvs & Hpr).
  { intros j Hj. destruct (Hbound j Hj) as (m & Hm & Hb).
    apply (probe_returns _ m); [exact Hb|lia]. }
  exists (Print header :: ev ++ [KillStray])%list, vs.
  unfold main. rewrite Hparse, Hev. repeat split; trivial.
  simpl. rewrite printed_app, Hpr. simpl. now rewrite app_nil_r.
Qed.

(** C6, as the code has it.  When the executable is absent, [quick_probe]
    returns the ERROR verdict "WeMod.exe missing after install" and does
    nothing else: it starts no child and does not call the teardown helper,
    the return of line 172 coming before the [try].  The teardown helper is
    called by [main]: at the start of the turn of that version, which
    prints the ERROR record, then at the start of the next turn, and after
    the last turn. *)
Theorem missing_executable_error (fuel : nat) (venv : VersionEnv)
    (kind version : string) :
  exe_exists (probe_env venv) = false ->
  probe venv fuel = Some (Ret ("ERROR", "WeMod.exe missing after install"), [])
  /\ (download_error venv = None -> install_error venv = None ->
      run_version dec args fuel venv kind version
      = Some [KillStray; Download kind version; Install;
              Print (record_line kind version "ERROR"
                       "WeMod.exe missing after install")])
  /\ (forall world i request rest ev,
        run_versions dec args fuel world i (request :: rest) = Some ev ->
        exists ev', ev = KillStray :: ev')
  /\ (forall world ev,
        main dec args fuel world = Some (Ret tt, ev) ->
        exists ev', ev = (ev' ++ [KillStray])%list).
Proof.
  intros Hexe.
  assert (Hp : probe venv fuel
               = Some (Ret ("ERROR", "WeMod.exe missing after install"), [])).
  { unfold quick_probe. now rewrite Hexe. }
  split; [exact Hp|]. split; [|split].
  - intros Hd Hi. unfold run_version, try_version. now rewrite Hd, Hi, Hp.
  - intros world i [k v] rest ev. cbn [run_versions]. unfold run_version.
    destruct (try_version _ _ _ _ _ _) as [[[[]|msg] tev]|]; [| |discriminate];
      (destruct (run_versions _ _ _ _ _ _); [|discriminate]);
      intros [= <-]; eauto.
  - intros world ev. unfold main.
    destruct (parse_versions _); [|discriminate].
    destruct (run_versions _ _ _ _ _ _) as [rev|]; [|discriminate].
    intros [= <-]. now exists (Print header :: rev)%list.
Qed.

End Run.

(** ** The scenarios of the specification, run *)

(** Scenario A: a renderer in every poll, 250 ms apart, threshold 2 s:
    STARTED in the ninth poll, after eight sleeps. *)
Example scenario_renderer_stable :
  quick_probe decode_ascii (world_of (fun _ => with_renderer)) 20 2 2 100 "/i" "/p"
  = Some (Ret ("STARTED",
               "renderer stable (state={'main': 1, 'renderer': 1, 'gpu': 0, 'utility': 0})"),
          (Launch "/i" "/p" :: repeat (Sleep (1 # 4)) 8 ++ [KillChild; KillStray])%list).
Proof. vm_compute. reflexivity. Qed.

(** Scenario B: the black pattern in every poll. *)
Example scenario_black_pattern :
  quick_probe decode_ascii black_world 20 2 2 100 "/i" "/p"
  = Some (Ret ("BLACK_PATTERN",
               "main+gpu+utility without renderer (state={'main': 1, 'renderer': 0, 'gpu': 1, 'utility': 1})"),
          (Launch "/i" "/p" :: repeat (Sleep (1 # 4)) 8 ++ [KillChild; KillStray])%list).
Proof. vm_compute. reflexivity. Qed.

(** Edge case (a): a renderer that flickers never reaches STARTED. *)
Example scenario_flicker :
  option_map fst (quick_probe decode_ascii flicker_world 3 2 2 100 "/i" "/p")
  = Some (Ret ("TIMEOUT",
               "no stable renderer within 3s (state={'main': 1, 'renderer': 1, 'gpu': 0, 'utility': 0})")).
Proof. vm_compute. reflexivity. Qed.

(** One poll without a renderer after eight with it: the count starts
    again, and STARTED comes eight polls after the gap. *)
Example scenario_gap :
  probe_loop decode_ascii renderer_gap_world 20 2 2 17 0 unarmed = None
  /\ probe_loop decode_ascii renderer_gap_world 20 2 2 18 0 unarmed
     = Some (("STARTED",
              "renderer stable (state={'main': 1, 'renderer': 1, 'gpu': 0, 'utility': 0})"),
             repeat (Sleep (1 # 4)) 17).
Proof. split; vm_compute; reflexivity. Qed.

(** Scenario D: the first download fails, the second probe times out. *)
Example scenario_two_requests :
  option_map (fun r => printed (snd r)) (main decode_ascii two_requests 100 two_worlds)
  = Some [ "kind,version,status,summary";
           "wand,12.0.3,ERROR,curl failed; exit status 22";
           "wemod,11.6.0,TIMEOUT,no stable renderer within 20s (state={'main': 0; 'renderer': 0; 'gpu': 0; 'utility': 0})" ].
Proof. vm_compute. reflexivity. Qed.

(** ** The theorems at the sample worlds *)

Lemma renderer_stable_started_witness :
  exists d, 2 <= d <= 10 /\
    forall fuel, d < fuel ->
      quick_probe decode_ascii renderer_world 20 2 2 fuel "/i" "/p"
      = Some (Ret ("STARTED",
                   "renderer stable (state="
                   ++ repr_state (state_at decode_ascii renderer_world d) ++ ")"),
              (Launch "/i" "/p" :: sleeps d ++ [KillChild; KillStray])%list).
Proof.
  apply (renderer_stable_started decode_ascii renderer_world 20 2 2 2 10 "/i" "/p").
  - reflexivity.
  - reflexivity.
  - lia.
  - intros k Hk.
    do 2 (destruct k as [|k]; [split; vm_compute; reflexivity|]). lia.
  - intros i' [= <-]. vm_compute. reflexivity.
  - intros k Hk.
    do 11 (destruct k as [|k]; [first [lia | split; vm_compute; reflexivity]|]).
    lia.
  - vm_compute. discriminate.
  - vm_compute. discriminate.
Defined.

Lemma black_pattern_stable_witness :
  exists d, 0 <= d <= 8 /\
    forall fuel, d < fuel ->
      quick_probe decode_ascii black_world 20 2 2 fuel "/i" "/p"
      = Some (Ret ("BLACK_PATTERN",
                   "main+gpu+utility without renderer (state="
                   ++ repr_state (state_at decode_ascii black_world d) ++ ")"),
              (Launch "/i" "/p" :: sleeps d ++ [KillChild; KillStray])%list).
Proof.
  apply (black_pattern_stable decode_ascii black_world 20 2 2 0 8 "/i" "/p").
  - reflexivity.
  - reflexivity.
  - lia.
  - intros k Hk. lia.
  - intros i' H. discriminate H.
  - intros k Hk.
    do 9 (destruct k as [|k]; [split; vm_compute; reflexivity|]). lia.
  - vm_compute. discriminate.
  - vm_compute. discriminate.
Defined.

Lemma gap_resets_debounce_witness :
  (forall fuel v ev, fuel <= 17 ->
     probe_loop decode_ascii renderer_gap_world 20 2 2 fuel 0 unarmed
     = Some (v, ev) -> fst v <> "STARTED")
  /\ (forall fuel v ev, fuel <= 17 ->
        probe_loop decode_ascii black_gap_world 20 2 2 fuel 0 unarmed
        = Some (v, ev) -> fst v <> "BLACK_PATTERN").
Proof.
  split.
  - destruct (gap_resets_debounce decode_ascii renderer_gap_world 20 2 2
                8 17 (1 # 4) eq_refl) as [Hr _].
    apply Hr.
    + intros k Hk.
      do 8 (destruct k as [|k]; [split; vm_compute; first [reflexivity|discriminate]|]).
      lia.
    + vm_compute. reflexivity.
    + intros k Hk.
      do 17 (destruct k as [|k];
             [first [lia | split; vm_compute; first [reflexivity|discriminate]]|]).
      lia.
  - destruct (gap_resets_debounce decode_ascii black_gap_world 20 2 2
                8 17 (1 # 4) eq_refl) as [_ Hb].
    apply Hb.
    + intros k Hk.
      do 8 (destruct k as [|k]; [split; vm_compute; first [reflexivity|discriminate]|]).
      lia.
    + vm_compute. reflexivity.
    + intros k Hk.
      do 17 (destruct k as [|k];
             [first [lia | split; vm_compute; first [reflexivity|discriminate]]|]).
      lia.
Defined.

Lemma renderer_check_first_witness :
  evaluate 2 2 empty_state (poll_at [] 8) (mkTimers (Some (tick 0)) (Some (tick 0)))
  = Some ("STARTED", "renderer stable (state=" ++ repr_state empty_state ++ ")").
Proof.
  apply renderer_check_first; vm_compute; discriminate.
Defined.

Lemma no_verdict_timeout_witness :
  quick_probe decode_ascii flicker_world 3 2 2 100 "/i" "/p"
  = Some (Ret ("TIMEOUT",
               "no stable renderer within " ++ fmt_0f 3 ++ "s (state="
               ++ repr_state (state_at decode_ascii flicker_world 12) ++ ")"),
          (Launch "/i" "/p" :: sleeps 12 ++ [KillChild; KillStray])%list).
Proof.
  apply (no_verdict_timeout decode_ascii flicker_world 3 2 2 12 "/i" "/p").
  - reflexivity.
  - reflexivity.
  - intros k Hk.
    do 12 (destruct k as [|k]; [vm_compute; reflexivity|]). lia.
  - intros k t Hk H _.
    do 12 (destruct k as [|k];
           [vm_compute in H;
            first [discriminate H | injection H as <-; vm_compute; reflexivity]|]).
    lia.
  - intros k t Hk H _.
    do 12 (destruct k as [|k];
           [vm_compute in H;
            first [discriminate H | injection H as <-; vm_compute; reflexivity]|]).
    lia.
  - vm_compute. reflexivity.
  - lia.
Defined.

Lemma zero_arm_time_is_unarmed_witness :
  evaluate 2 2 empty_state (poll_at [] 8) (mkTimers (Some 0%Q) None) = None
  /\ evaluate 2 2 empty_state (poll_at [] 8) (mkTimers None (Some 0%Q)) = None.
Proof.
  destruct (zero_arm_time_is_unarmed 2 2 empty_state (poll_at [] 8) 0%Q None
              (Qeq_refl 0)) as (_ & _ & H1 & H2).
  split; [exact H1|exact H2].
Defined.

(** C6, as the claim has it: on the path of the missing executable
    [quick_probe] would call the teardown helper.  It does not. *)
Lemma missing_executable_no_teardown :
  ~ (exists detail ev,
       quick_probe decode_ascii missing_world 20 2 2 100 "/i" "/p"
       = Some (Ret ("ERROR", detail), ev)
       /\ contains "missing" detail = true
       /\ (forall a b, ~ In (Launch a b) ev)
       /\ In KillStray ev).
Proof.
  intros (detail & ev & H & _ & _ & Hin).
  vm_compute in H. injection H as <- <-. destruct Hin.
Qed.

Lemma missing_executable_error_witness :
  quick_probe decode_ascii missing_world 20 2 2 100 "/opt/wemod_bin" "/opt/wemod_prefix"
  = Some (Ret ("ERROR", "WeMod.exe missing after install"), [])
  /\ run_version decode_ascii two_requests 100 missing_version "wand" "12.0.3"
     = Some [KillStray; Download "wand" "12.0.3"; Install;
             Print "wand,12.0.3,ERROR,WeMod.exe missing after install"].
Proof.
  destruct (missing_executable_error decode_ascii two_requests 100
              missing_version "wand" "12.0.3" eq_refl) as (H1 & H2 & _).
  split; [exact H1|]. exact (H2 eq_refl eq_refl).
Defined.

Lemma one_record_per_request_witness :
  exists fuel0, forall fuel, fuel0 <= fuel ->
    exists ev verdicts,
      main decode_ascii two_requests fuel two_worlds = Some (Ret tt, ev)
      /\ List.length verdicts = 2
      /\ (forall i, i < 2 ->
            reports decode_ascii two_requests fuel (two_worlds i)
              (nth i verdicts ("", "")))
      /\ printed ev
         = header :: map record_of
                       (combine [("wand", "12.0.3"); ("wemod", "11.6.0")] verdicts).
Proof.
  apply (one_record_per_request decode_ascii two_requests two_worlds
           [("wand", "12.0.3"); ("wemod", "11.6.0")] eq_refl).
  intros i Hi. exists 80.
  destruct i as [|[|i]]; [vm_compute; reflexivity|vm_compute; reflexivity|].
  simpl in Hi. lia.
Defined.

(** * Further properties of the code *)

(** ** What a verdict of the loop tells *)

Section Soundness.

Variable dec : string -> string.
Variable env : ProbeEnv.
Variables observe_timeout_sec renderer_stable_sec black_pattern_sec : Q.

Local Notation state_at := (state_at dec env).
Local Notation timers_before := (timers_before dec env).
Local Notation timers_at := (timers_at dec env).
Local Notation verdict_at :=
  (verdict_at dec env renderer_stable_sec black_pattern_sec).
Local Notation budget_at := (budget_at env observe_timeout_sec).
Local Notation quiet :=
  (quiet dec env observe_timeout_sec renderer_stable_sec black_pattern_sec).
Local Notation timeout_verdict := (timeout_verdict dec env observe_timeout_sec).
Local Notation loop :=
  (probe_loop dec env observe_timeout_sec renderer_stable_sec black_pattern_sec).
Local Notation quick_probe :=
  (quick_probe dec env observe_timeout_sec renderer_stable_sec black_pattern_sec).

Lemma arm_none (cond : bool) (since : option Q) (now : Q) :
  arm cond since now = None -> cond = false.
Proof. unfold arm. destruct cond, since; congruence. Qed.

(** An armed renderer timer holds the reading of the iteration that began
    the current run of snapshots with a renderer. *)
Lemma renderer_timer_origin (k : nat) (t : Q) :
  renderer_since (timers_at k) = Some t ->
  exists i, i <= k
    /\ t = t_arm_renderer (polls env i)
    /\ (forall j, i <= j <= k -> renderer_present (state_at j) = true)
    /\ (forall i', i = S i' -> renderer_present (state_at i') = false).
Proof.
  revert t. induction k as [|k IH]; intros t; rewrite renderer_timer_eq.
  - destruct (renderer_present (state_at 0)) eqn:E; [|discriminate].
    simpl. intros [= <-]. exists 0. repeat split; try lia.
    intros j Hj. now replace j with 0 by lia.
  - rewrite timers_before_S.
    destruct (renderer_present (state_at (S k))) eqn:E; [|discriminate].
    destruct (renderer_since (timers_at k)) as [t'|] eqn:Ek; simpl.
    + intros [= <-]. destruct (IH t' eq_refl) as (i & Hi & Ht & Hrun & Hentry).
      exists i. repeat split; trivial; try lia.
      intros j Hj. destruct (Nat.eq_dec j (S k)) as [->|]; [trivial|apply Hrun; lia].
    + intros [= <-]. exists (S k). repeat split; try lia.
      * intros j Hj. now replace j with (S k) by lia.
      * intros i' [= <-]. rewrite renderer_timer_eq in Ek. now apply arm_none in Ek.
Qed.

Lemma black_timer_origin (k : nat) (t : Q) :
  black_since (timers_at k) = Some t ->
  exists i, i <= k
    /\ t = t_arm_black (polls env i)
    /\ (forall j, i <= j <= k -> black_pattern (state_at j) = true)
    /\ (forall i', i = S i' -> black_pattern (state_at i') = false).
Proof.
  revert t. induction k as [|k IH]; intros t; rewrite black_timer_eq.
  - destruct (black_pattern (state_at 0)) eqn:E; [|discriminate].
    simpl. intros [= <-]. exists 0. repeat split; try lia.
    intros j Hj. now replace j with 0 by lia.
  - rewrite timers_before_S.
    destruct (black_pattern (state_at (S k))) eqn:E; [|discriminate].
    destruct (black_since (timers_at k)) as [t'|] eqn:Ek; simpl.
    + intros [= <-]. destruct (IH t' eq_refl) as (i & Hi & Ht & Hrun & Hentry).
      exists i. repeat split; trivial; try lia.
      intros j Hj. destruct (Nat.eq_dec j (S k)) as [->|]; [trivial|apply Hrun; lia].
    + intros [= <-]. exists (S k). repeat split; try lia.
      * intros j Hj. now replace j with (S k) by lia.
      * intros i' [= <-]. rewrite black_timer_eq in Ek. now apply arm_none in Ek.
Qed.

(** The three shapes a verdict of lines 210-214 and 219 can have. *)
Lemma verdict_at_cases (k : nat) (v : Verdict) :
  verdict_at k = Some v ->
  (v = ("STARTED", "renderer stable (state=" ++ repr_state (state_at k) ++ ")")
   /\ crossed (renderer_since (timers_at k)) (t_chk_renderer (polls env k))
        renderer_stable_sec = true)
  \/ (v = ("BLACK_PATTERN",
           "main+gpu+utility without renderer (state="
           ++ repr_state (state_at k) ++ ")")
      /\ crossed (renderer_since (timers_at k)) (t_chk_renderer (polls env k))
           renderer_stable_sec = false
      /\ crossed (black_since (timers_at k)) (t_chk_black (polls env k))
           black_pattern_sec = true).
Proof.
  unfold verdict_at, evaluate.
  destruct (crossed (renderer_since (timers_at k)) _ _); [intros [= <-]; auto|].
  destruct (crossed (black_since (timers_at k)) _ _); [intros [= <-]; auto|].
  discriminate.
Qed.

(** STARTED is returned only after a run of snapshots with a renderer that
    lasted at least [renderer_stable_sec]: when the loop returns STARTED it
    does so in an iteration [k], after [k] sleeps, showing the snapshot of
    [k]; every snapshot from some iteration [i] to [k] had a renderer, the
    one before [i], if any, had none, and the check of [k] read at least
    [renderer_stable_sec] more than the arming of [i], which read non-zero. *)
Theorem started_only_after_stable_run (fuel : nat) (detail : string)
    (ev : list Event) :
  loop fuel 0 unarmed = Some (("STARTED", detail), ev) ->
  exists i k, i <= k < fuel
    /\ ev = sleeps k
    /\ detail = "renderer stable (state=" ++ repr_state (state_at k) ++ ")"
    /\ (forall j, i <= j <= k -> renderer_present (state_at j) = true)
    /\ (forall i', i = S i' -> renderer_present (state_at i') = false)
    /\ ~ (t_arm_renderer (polls env i) == 0)%Q
    /\ (renderer_stable_sec
        <= t_chk_renderer (polls env k) - t_arm_renderer (polls env i))%Q.
Proof.
  intros Hl. change unarmed with (timers_before 0) in Hl.
  destruct (loop_decided _ _ _ _ _ _ _ _ _ Hl) as (k & Hk & _ & Hd & Hev).
  destruct Hd as [[_ Hv]|[_ Hv]]; [|discriminate Hv].
  destruct (verdict_at_cases _ _ Hv) as [[Hd Hc]|[Hd _]]; [|discriminate Hd].
  injection Hd as ->.
  apply crossed_true in Hc. destruct Hc as (t & Ht & Hz & Hle).
  destruct (renderer_timer_origin _ _ Ht) as (i & Hi & -> & Hrun & Hentry).
  exists i, k. rewrite Nat.sub_0_r in Hev. repeat split; trivial; lia.
Qed.

(** BLACK_PATTERN likewise: it is returned only after a run of snapshots
    with main, gpu and utility and no renderer that lasted at least
    [black_pattern_sec]. *)
Theorem black_pattern_only_after_stable_run (fuel : nat) (detail : string)
    (ev : list Event) :
  loop fuel 0 unarmed = Some (("BLACK_PATTERN", detail), ev) ->
  exists i k, i <= k < fuel
    /\ ev = sleeps k
    /\ detail = "main+gpu+utility without renderer (state="
                ++ repr_state (state_at k) ++ ")"
    /\ (forall j, i <= j <= k -> black_pattern (state_at j) = true)
    /\ (forall i', i = S i' -> black_pattern (state_at i') = false)
    /\ ~ (t_arm_black (polls env i) == 0)%Q
    /\ (black_pattern_sec
        <= t_chk_black (polls env k) - t_arm_black (polls env i))%Q.
Proof.
  intros Hl. change unarmed with (timers_before 0) in Hl.
  destruct (loop_decided _ _ _ _ _ _ _ _ _ Hl) as (k & Hk & _ & Hd & Hev).
  destruct Hd as [[_ Hv]|[_ Hv]]; [|discriminate Hv].
  destruct (verdict_at_cases _ _ Hv) as [[Hd _]|[Hd [_ Hc]]]; [discriminate Hd|].
  injection Hd as ->.
  apply crossed_true in Hc. destruct Hc as (t & Ht & Hz & Hle).
  destruct (black_timer_origin _ _ Ht) as (i & Hi & -> & Hrun & Hentry).
  exists i, k. rewrite Nat.sub_0_r in Hev. repeat split; trivial; lia.
Qed.

(** Whatever [quick_probe] returns, either it did nothing at all, the
    executable being absent or the child failing to start, or it started
    one child, slept between polls, and at the end killed the child and
    called the teardown helper, in that order; and its status is one of
    the four. *)
Theorem quick_probe_cleans_up (fuel : nat) (install_dir prefix_dir : string)
    (r : result Verdict) (ev : list Event) :
  quick_probe fuel install_dir prefix_dir = Some (r, ev) ->
  (ev = []
   /\ ((exe_exists env = false
        /\ r = Ret ("ERROR", "WeMod.exe missing after install"))
       \/ (exe_exists env = true
           /\ exists msg, popen_error env = Some msg /\ r = Raise msg)))
  \/ (exe_exists env = true /\ popen_error env = None
      /\ exists status detail n,
           r = Ret (status, detail)
           /\ (status = "STARTED" \/ status = "BLACK_PATTERN" \/ status = "TIMEOUT")
           /\ n < fuel
           /\ ev = (Launch install_dir prefix_dir :: sleeps n
                    ++ [KillChild; KillStray])%list).
Proof.
  unfold quick_probe. destruct (exe_exists env); simpl.
  - destruct (popen_error env) as [msg|].
    + intros [= <- <-]. left. split; [reflexivity|]. right. eauto.
    + destruct (loop fuel 0 unarmed) as [[v lev]|] eqn:Hl; [|discriminate].
      intros [= <- <-]. right. repeat split.
      change unarmed with (timers_before 0) in Hl.
      destruct (loop_decided _ _ _ _ _ _ _ _ _ Hl) as (k & Hk & _ & Hd & ->).
      rewrite Nat.sub_0_r.
      destruct Hd as [[_ Hv]|[_ ->]].
      * destruct (verdict_at_cases _ _ Hv) as [[-> _]|[-> _]];
          eexists _, _, k; repeat split; auto; lia.
      * eexists _, _, k. repeat split; auto; lia.
  - intros [= <- <-]. left. split; [reflexivity|]. left. auto.
Qed.

(** When every pass through the loop takes at least the quarter second of
    its sleep, the probe returns within [n] sleeps, [n] quarters of a
    second covering the budget. *)
Theorem quick_probe_returns_within (n : nat) (install_dir prefix_dir : string) :
  exe_exists env = true -> popen_error env = None ->
  (forall k, (t_start env + inject_Z (Z.of_nat k) * (1 # 4)
              <= t_loop (polls env k))%Q) ->
  (observe_timeout_sec <= inject_Z (Z.of_nat n) * (1 # 4))%Q ->
  exists v k, k <= n /\
    forall fuel, n < fuel ->
      quick_probe fuel install_dir prefix_dir
      = Some (Ret v, (Launch install_dir prefix_dir :: sleeps k
                      ++ [KillChild; KillStray])%list).
Proof.
  intros He Hp Hclock Hn.
  assert (Hb : budget_at (0 + n) = false).
  { unfold budget_at, in_budget, Qlt_bool. apply negb_false_iff, Qle_bool_iff.
    specialize (Hclock n). simpl. lra. }
  destruct (loop_returns dec env observe_timeout_sec renderer_stable_sec
              black_pattern_sec n 0 unarmed Hb) as [[v lev] Hl].
  pose proof Hl as Hl'. change unarmed with (timers_before 0) in Hl'.
  destruct (loop_decided _ _ _ _ _ _ _ _ _ Hl') as (k & Hk & _ & _ & ->).
  rewrite Nat.sub_0_r in Hl. exists v, k. split; [lia|]. intros fuel Hf.
  unfold quick_probe. rewrite He, Hp. simpl.
  apply (loop_more_fuel _ _ _ _ _ _ (fuel - S n)) in Hl.
  replace (S n + (fuel - S n)) with fuel in Hl by lia. now rewrite Hl.
Qed.

End Soundness.

Lemma started_only_after_stable_run_witness :
  exists i k, i <= k < 100
    /\ repeat (Sleep (1 # 4)) 10 = sleeps k
    /\ "renderer stable (state={'main': 1, 'renderer': 1, 'gpu': 0, 'utility': 0})"
       = "renderer stable (state="
         ++ repr_state (state_at decode_ascii renderer_world k) ++ ")"
    /\ (forall j, i <= j <= k ->
          renderer_present (state_at decode_ascii renderer_world j) = true)
    /\ (forall i', i = S i' ->
          renderer_present (state_at decode_ascii renderer_world i') = false)
    /\ ~ (t_arm_renderer (polls renderer_world i) == 0)%Q
    /\ (2 <= t_chk_renderer (polls renderer_world k)
             - t_arm_renderer (polls renderer_world i))%Q.
Proof.
  apply (started_only_after_stable_run decode_ascii renderer_world 20 2 2 100).
  vm_compute. reflexivity.
Defined.

Lemma black_pattern_only_after_stable_run_witness :
  exists i k, i <= k < 100
    /\ repeat (Sleep (1 # 4)) 8 = sleeps k
    /\ "main+gpu+utility without renderer (state={'main': 1, 'renderer': 0, 'gpu': 1, 'utility': 1})"
       = "main+gpu+utility without renderer (state="
         ++ repr_state (state_at decode_ascii black_world k) ++ ")"
    /\ (forall j, i <= j <= k ->
          black_pattern (state_at decode_ascii black_world j) = true)
    /\ (forall i', i = S i' ->
          black_pattern (state_at decode_ascii black_world i') = false)
    /\ ~ (t_arm_black (polls black_world i) == 0)%Q
    /\ (2 <= t_chk_black (polls black_world k)
             - t_arm_black (polls black_world i))%Q.
Proof.
  apply (black_pattern_only_after_stable_run decode_ascii black_world 20 2 2 100).
  vm_compute. reflexivity.
Defined.

Lemma quick_probe_cleans_up_witness :
  exe_exists flicker_world = true /\ popen_error flicker_world = None
  /\ exists status detail n,
       Ret ("TIMEOUT",
            "no stable renderer within 3s (state={'main': 1, 'renderer': 1, 'gpu': 0, 'utility': 0})")
       = Ret (status, detail)
       /\ (status = "STARTED" \/ status = "BLACK_PATTERN" \/ status = "TIMEOUT")
       /\ n < 100
       /\ (Launch "/i" "/p" :: repeat (Sleep (1 # 4)) 12 ++ [KillChild; KillStray])%list
          = (Launch "/i" "/p" :: sleeps n ++ [KillChild; KillStray])%list.
Proof.
  destruct (quick_probe_cleans_up decode_ascii flicker_world 3 2 2 100 "/i" "/p"
              (Ret ("TIMEOUT",
                    "no stable renderer within 3s (state={'main': 1, 'renderer': 1, 'gpu': 0, 'utility': 0})"))
              (Launch "/i" "/p" :: repeat (Sleep (1 # 4)) 12 ++ [KillChild; KillStray])%list)
    as [[H _]|H].
  - vm_compute. reflexivity.
  - discriminate H.
  - exact H.
Defined.

Lemma tick_advances (k : nat) :
  (tick 0 + inject_Z (Z.of_nat k) * (1 # 4) <= tick k)%Q.
Proof. unfold tick, Qle. cbn -[Z.of_nat Z.mul Z.add]. lia. Qed.

Lemma quick_probe_returns_within_witness :
  exists v k, k <= 4 /\
    forall fuel, 4 < fuel ->
      quick_probe decode_ascii idle_world 1 2 2 fuel "/i" "/p"
      = Some (Ret v, (Launch "/i" "/p" :: sleeps k ++ [KillChild; KillStray])%list).
Proof.
  apply (quick_probe_returns_within decode_ascii idle_world 1 2 2 4 "/i" "/p").
  - reflexivity.
  - reflexivity.
  - exact tick_advances.
  - vm_compute. discriminate.
Defined.

(** ** The snapshot and the teardown *)

Lemma state_ext (a b : State) :
  (forall r, count r a = count r b) -> a = b.
Proof.
  intros H. destruct a, b.
  pose proof (H RMain). pose proof (H RRenderer).
  pose proof (H RGpu). pose proof (H RUtility). simpl in *. congruence.
Qed.

Lemma bump_comm (r r' : Role) (s : State) : bump r (bump r' s) = bump r' (bump r s).
Proof. apply state_ext. intros q. rewrite !count_bump. lia. Qed.

Section Table.

Variable dec : string -> string.

Lemma scan_entry_comm (s : State) (x y : ProcEntry) :
  scan_entry dec (scan_entry dec s x) y = scan_entry dec (scan_entry dec s y) x.
Proof.
  unfold scan_entry. destruct (classify dec x), (classify dec y); trivial.
  apply bump_comm.
Qed.

Lemma scan_permutation (l l' : list ProcEntry) :
  Permutation l l' ->
  forall s, fold_left (scan_entry dec) l s = fold_left (scan_entry dec) l' s.
Proof.
  induction 1 as [|x l l' _ IH|x y l|l l' l'' _ IH1 _ IH2]; intros s; simpl.
  - reflexivity.
  - apply IH.
  - now rewrite scan_entry_comm.
  - now rewrite IH1.
Qed.

(** The snapshot does not depend on the order in which /proc lists its
    entries. *)
Theorem inspect_state_any_order (l l' : list ProcEntry) :
  Permutation l l' -> inspect_state dec l = inspect_state dec l'.
Proof. intros H. unfold inspect_state. now apply scan_permutation. Qed.

(** The snapshot of two listings put together is the sum of their
    snapshots, role by role. *)
Theorem inspect_state_app (l1 l2 : list ProcEntry) (r : Role) :
  count r (inspect_state dec (l1 ++ l2))
  = (count r (inspect_state dec l1) + count r (inspect_state dec l2))%Z.
Proof.
  unfold inspect_state. rewrite fold_left_app, !count_scan.
  destruct r; simpl; lia.
Qed.

Lemma targeted_counted (entry : ProcEntry) :
  targeted dec entry = counted dec entry.
Proof.
  unfold targeted, counted, classify.
  destruct (negb (is_dir entry) || negb (isdigit (name entry))); trivial.
  destruct (cmdline entry) as [raw|]; trivial.
  destruct (String.eqb raw ""); trivial.
  destruct (contains "wand.exe" _), (contains "wemod.exe" _); reflexivity.
Qed.

Lemma int_digits_nonneg (s : string) (acc pid : Z) :
  (0 <= acc)%Z -> int_digits acc s = Some pid -> (0 <= pid)%Z.
Proof.
  revert acc. induction s as [|c s IH]; intros acc Hacc; cbn [int_digits].
  - intros [= <-]. exact Hacc.
  - unfold digit_value. destruct ((48 <=? code c) && (code c <=? 57)); [|discriminate].
    apply IH. lia.
Qed.

(** The teardown helper signals only processes the snapshot counts: every
    process number it calls [os.kill] with is the name, read as a decimal
    number, of an entry of the listing that [inspect_state] counts, and is
    not negative. *)
Theorem kill_only_counted (listing : list ProcEntry) (pid : Z) :
  In pid (kill_wemod_processes dec listing) ->
  exists entry, In entry listing
    /\ counted dec entry = true
    /\ int_of_digits (name entry) = Some pid
    /\ (0 <= pid)%Z.
Proof.
  induction listing as [|e l IH]; simpl; [contradiction|].
  destruct (targeted dec e) eqn:Ht.
  - destruct (int_of_digits (name e)) as [p|] eqn:Hp.
    + intros [<-|Hin].
      * exists e. rewrite <- targeted_counted. repeat split; auto.
        unfold int_of_digits in Hp. destruct (name e); [discriminate|].
        eapply int_digits_nonneg; [|exact Hp]. lia.
      * destruct (IH Hin) as (e' & ? & ? & ? & ?). exists e'. auto.
    + intros Hin. destruct (IH Hin) as (e' & ? & ? & ? & ?). exists e'. auto.
  - intros Hin. destruct (IH Hin) as (e' & ? & ? & ? & ?). exists e'. auto.
Qed.

(** When the names of the listing are plain decimal numbers, the teardown
    helper signals as many processes as the snapshot counts in all. *)
Theorem kill_as_many_as_counted (listing : list ProcEntry) :
  (forall entry, In entry listing -> isdigit (name entry) = true ->
     int_of_digits (name entry) <> None) ->
  let s := inspect_state dec listing in
  Z.of_nat (List.length (kill_wemod_processes dec listing))
  = (n_main s + n_renderer s + n_gpu s + n_utility s)%Z.
Proof.
  intros Hnames s.
  assert (Hlen : List.length (kill_wemod_processes dec listing)
                 = List.length (filter (counted dec) listing)).
  { clear s. induction listing as [|e l IH]; [reflexivity|].
    cbn [kill_wemod_processes filter]. rewrite <- targeted_counted.
    destruct (targeted dec e) eqn:Ht.
    - destruct (int_of_digits (name e)) eqn:Hp.
      + simpl. f_equal. apply IH. intros e' Hin. apply Hnames. now right.
      + exfalso. apply (Hnames e); [now left| |exact Hp].
        unfold targeted in Ht. destruct (is_dir e); simpl in Ht; [|discriminate].
        destruct (isdigit (name e)); [reflexivity|discriminate].
    - apply IH. intros e' Hin. apply Hnames. now right. }
  rewrite Hlen, counted_split.
  pose proof (count_scan dec RMain listing empty_state) as Hm.
  pose proof (count_scan dec RRenderer listing empty_state) as Hr.
  pose proof (count_scan dec RGpu listing empty_state) as Hg.
  pose proof (count_scan dec RUtility listing empty_state) as Hu.
  subst s. unfold inspect_state. simpl in Hm, Hr, Hg, Hu. lia.
Qed.

(** Once the processes the teardown helper aims at are gone, the snapshot
    is empty: no role has a process left. *)
Theorem snapshot_empty_after_teardown (listing : list ProcEntry) :
  inspect_state dec (filter (fun entry => negb (targeted dec entry)) listing)
  = empty_state.
Proof.
  unfold inspect_state. generalize empty_state.
  induction listing as [|e l IH]; intros s; [reflexivity|].
  cbn [filter]. destruct (targeted dec e) eqn:Ht; simpl; [apply IH|].
  unfold scan_entry at 2. rewrite targeted_counted in Ht. unfold counted in Ht.
  destruct (classify dec e); [discriminate|]. apply IH.
Qed.

End Table.

Lemma inspect_state_any_order_witness :
  inspect_state decode_ascii (rev sample_listing)
  = inspect_state decode_ascii sample_listing.
Proof.
  apply inspect_state_any_order. apply Permutation_sym, Permutation_rev.
Defined.

Lemma kill_only_counted_witness :
  exists entry, In entry sample_listing
    /\ counted decode_ascii entry = true
    /\ int_of_digits (name entry) = Some 102%Z
    /\ (0 <= 102)%Z.
Proof.
  apply (kill_only_counted decode_ascii sample_listing 102).
  vm_compute. auto.
Defined.

Lemma kill_as_many_as_counted_witness :
  Z.of_nat (List.length (kill_wemod_processes decode_ascii sample_listing))
  = (n_main (inspect_state decode_ascii sample_listing)
     + n_renderer (inspect_state decode_ascii sample_listing)
     + n_gpu (inspect_state decode_ascii sample_listing)
     + n_utility (inspect_state decode_ascii sample_listing))%Z.
Proof.
  apply (kill_as_many_as_counted decode_ascii sample_listing).
  intros entry Hin Hd. simpl in Hin.
  repeat (destruct Hin as [<-|Hin];
          [first [vm_compute; discriminate | vm_compute in Hd; discriminate Hd]|]).
  destruct Hin.
Defined.

(** ** Parsed requests *)

Lemma split_once_inv (sep : ascii) (s a b : string) :
  split_once sep s = Some (a, b) ->
  s = a ++ String sep b /\ has_char sep a = false.
Proof.
  revert a. induction s as [|c s IH]; intros a; simpl; [discriminate|].
  destruct (Ascii.eqb_spec c sep) as [->|Hne].
  - intros [= <- <-]. split; reflexivity.
  - destruct (split_once sep s) as [[a' b']|]; [|discriminate].
    intros [= <- <-]. destruct (IH a' eq_refl) as [-> Ha]. split; [reflexivity|].
    simpl. rewrite Ha. destruct (Ascii.eqb_spec c sep); [contradiction|reflexivity].
Qed.

Lemma rstrip_idempotent (s : string) : rstrip (rstrip s) = rstrip s.
Proof.
  induction s as [|c s IH]; [reflexivity|]. cbn [rstrip].
  destruct (rstrip s) as [|d r] eqn:E.
  - destruct (isspace c) eqn:Ec; [reflexivity|]. cbn [rstrip]. now rewrite Ec.
  - cbn [rstrip] in *. now rewrite IH.
Qed.

Lemma lstrip_head (s : string) (c : ascii) (r : string) :
  lstrip s = String c r -> isspace c = false.
Proof.
  induction s as [|d s IH]; simpl; [discriminate|].
  destruct (isspace d) eqn:Ed; [exact IH|]. now intros [= <- <-].
Qed.

Lemma rstrip_keeps_head (c : ascii) (s : string) :
  isspace c = false -> exists r, rstrip (String c s) = String c r.
Proof.
  intros Hc. cbn [rstrip]. destruct (rstrip s); rewrite ?Hc; eauto.
Qed.

Lemma strip_idempotent (s : string) : strip (strip s) = strip s.
Proof.
  unfold strip. destruct (lstrip s) as [|c r] eqn:E; [reflexivity|].
  pose proof (lstrip_head _ _ _ E) as Hc.
  destruct (rstrip_keeps_head c r Hc) as [r' Hr]. rewrite Hr.
  cbn [lstrip]. rewrite Hc, <- Hr. apply rstrip_idempotent.
Qed.

Lemma known_kind_cases (kind : string) :
  known_kind kind = true -> kind = "wand" \/ kind = "wemod".
Proof.
  unfold known_kind. rewrite orb_true_iff, !String.eqb_eq. trivial.
Qed.

Lemma parse_ret_inv (entry kind version : string) :
  parse_version_entry entry = Ret (kind, version) ->
  (kind = "wand" \/ kind = "wemod")
  /\ version <> "" /\ strip version = version
  /\ exists k v, entry = k ++ ":" ++ v /\ has_char colon k = false
       /\ kind = lower (strip k) /\ version = strip v.
Proof.
  unfold parse_version_entry.
  destruct (split_once colon entry) as [[k v]|] eqn:Hs; [|discriminate].
  destruct (known_kind (lower (strip k))) eqn:Hk; simpl; [|discriminate].
  destruct (String.eqb_spec (strip v) "") as [|Hv]; [discriminate|].
  intros [= <- <-]. destruct (split_once_inv _ _ _ _ Hs) as [-> Hc].
  split; [now apply known_kind_cases|]. split; [exact Hv|].
  split; [apply strip_idempotent|]. exists k, v. auto.
Qed.


(** What [parse_version_entry] returns is a kind of the two, in lower
    case, and a version that is not empty and has no white space around
    it; they are the stripped parts of the entry before and after its
    first colon. *)
Theorem parsed_request_well_formed (entry kind version : string) :
  parse_version_entry entry = Ret (kind, version) ->
  (kind = "wand" \/ kind = "wemod")
  /\ version <> "" /\ strip version = version
  /\ exists k v, entry = k ++ ":" ++ v /\ has_char colon k = false
       /\ kind = lower (strip k) /\ version = strip v.
Proof.
  unfold parse_version_entry.
  destruct (split_once colon entry) as [[k v]|] eqn:Hs; [|discriminate].
  destruct (known_kind (lower (strip k))) eqn:Hk; simpl; [|discriminate].
  destruct (String.eqb_spec (strip v) "") as [|Hv]; [discriminate|].
  intros [= <- <-]. destruct (split_once_inv _ _ _ _ Hs) as [-> Hc].
  split; [now apply known_kind_cases|]. split; [exact Hv|].
  split; [apply strip_idempotent|]. exists k, v. auto.
Qed.

(** Writing a parsed request back as kind:version and parsing it again
    gives the same request. *)
Theorem parse_version_entry_round_trip (entry kind version : string) :
  parse_version_entry entry = Ret (kind, version) ->
  parse_version_entry (kind ++ ":" ++ version) = Ret (kind, version).
Proof.
  intros H. destruct (parse_ret_inv _ _ _ H) as (Hk & Hv & Hs & _).
  unfold parse_version_entry.
  change (kind ++ ":" ++ version) with (kind ++ String colon version).
  rewrite split_once_first by (destruct Hk as [->| ->]; reflexivity).
  rewrite Hs.
  replace (known_kind (lower (strip kind))) with true
    by (destruct Hk as [->| ->]; reflexivity).
  simpl. destruct (String.eqb_spec version ""); [contradiction|].
  destruct Hk as [->| ->]; reflexivity.
Qed.

Lemma parse_versions_ret (entries : list string) (requests : list (string * string)) :
  parse_versions entries = Ret requests
  <-> map parse_version_entry entries = map Ret requests.
Proof.
  revert requests. induction entries as [|e l IH]; intros requests; simpl.
  - split; [intros [= <-]; reflexivity|]. destruct requests; [reflexivity|discriminate].
  - destruct (parse_version_entry e) as [kv|msg].
    + destruct (parse_versions l) as [kvs|msg] eqn:El.
      * split.
        -- intros [= <-]. simpl. f_equal. now apply IH.
        -- destruct requests as [|r rs]; [discriminate|]. simpl.
           intros [= -> Hm]. apply IH in Hm. congruence.
      * split; [discriminate|].
        destruct requests as [|r rs]; [discriminate|]. simpl.
        intros [= -> Hm]. apply IH in Hm. discriminate.
    + split; [discriminate|]. destruct requests; discriminate.
Qed.

Lemma parse_versions_raise (entries : list string) (msg : string) :
  parse_versions entries = Raise msg
  <-> exists good bad rest requests,
        entries = (good ++ bad :: rest)%list
        /\ map parse_version_entry good = map Ret requests
        /\ parse_version_entry bad = Raise msg.
Proof.
  revert msg. induction entries as [|e l IH]; intros msg; simpl.
  - split; [discriminate|]. intros (good & bad & rest & _ & H & _).
    destruct good; discriminate.
  - destruct (parse_version_entry e) as [kv|m] eqn:Ee.
    + destruct (parse_versions l) as [kvs|m].
      * split; [discriminate|].
        intros (good & bad & rest & requests & Hl & Hg & Hb).
        destruct good as [|g good]; simpl in Hl; injection Hl as -> ->.
        -- congruence.
        -- destruct requests as [|r rs]; [discriminate|]. simpl in Hg.
           injection Hg as _ Hg.
           assert (E : Ret kvs = Raise msg :> result (list (string * string)))
             by (apply IH; exists good, bad, rest, rs; auto).
           discriminate.
      * split.
        -- intros [= <-].
           destruct (proj1 (IH m) eq_refl)
             as (good & bad & rest & requests & -> & Hg & Hb).
           exists (e :: good), bad, rest, (kv :: requests).
           repeat split; trivial. simpl. now rewrite Ee, Hg.
        -- intros (good & bad & rest & requests & Hl & Hg & Hb).
           destruct good as [|g good]; simpl in Hl; injection Hl as -> ->.
           ++ congruence.
           ++ destruct requests as [|r rs]; [discriminate|]. simpl in Hg.
              injection Hg as _ Hg. apply IH. exists good, bad, rest, rs. auto.
    + split.
      * intros [= <-]. exists [], e, l, []. repeat split; trivial.
      * intros (good & bad & rest & requests & Hl & Hg & Hb).
        destruct good as [|g good]; simpl in Hl; injection Hl as -> ->.
        -- congruence.
        -- destruct requests as [|r rs]; [discriminate|]. simpl in Hg.
           congruence.
Qed.

(** [parse_versions] gives the requests of all entries, in order, when
    every entry parses, and else raises what the first entry that does not
    parse raises. *)
Theorem parse_versions_all_or_first_error (entries : list string) :
  (forall requests,
     parse_versions entries = Ret requests
     <-> map parse_version_entry entries = map Ret requests)
  /\ (forall msg,
        parse_versions entries = Raise msg
        <-> exists good bad rest requests,
              entries = (good ++ bad :: rest)%list
              /\ map parse_version_entry good = map Ret requests
              /\ parse_version_entry bad = Raise msg).
Proof.
  split; [intros requests; apply parse_versions_ret|].
  intros msg. apply parse_versions_raise.
Qed.

Lemma parsed_request_well_formed_witness :
  ("wemod" = "wand" \/ "wemod" = "wemod")
  /\ "11:6" <> "" /\ strip "11:6" = "11:6"
  /\ exists k v, " WeMod : 11:6 " = k ++ ":" ++ v /\ has_char colon k = false
       /\ "wemod" = lower (strip k) /\ "11:6" = strip v.
Proof.
  apply (parsed_request_well_formed " WeMod : 11:6 " "wemod" "11:6"). reflexivity.
Defined.

Lemma parse_version_entry_round_trip_witness :
  parse_version_entry ("wemod" ++ ":" ++ "11:6") = Ret ("wemod", "11:6").
Proof.
  apply (parse_version_entry_round_trip " WeMod : 11:6 "). reflexivity.
Defined.

Lemma parse_versions_all_or_first_error_witness :
  parse_versions ["wand:1"; "wemod:2"] = Ret [("wand", "1"); ("wemod", "2")]
  /\ parse_versions ["wand:1"; "steam:2"; "oops"]
     = Raise "invalid kind 'steam' in 'steam:2', expected wand or wemod".
Proof.
  split.
  - apply (proj1 (parse_versions_all_or_first_error ["wand:1"; "wemod:2"])).
    reflexivity.
  - apply (proj2 (parse_versions_all_or_first_error ["wand:1"; "steam:2"; "oops"])).
    exists ["wand:1"], "steam:2", ["oops"], [("wand", "1")]. repeat split.
Defined.

(** ** The run as a whole *)

Lemma orderly_app (a b : list Event) (alive : bool) :
  orderly alive a = true -> orderly false b = true ->
  orderly alive (a ++ b) = true.
Proof.
  revert alive. induction a as [|e a IH]; intros alive Ha Hb.
  - simpl in Ha. destruct alive; [discriminate|exact Hb].
  - destruct e; cbn [orderly app] in *;
      apply andb_true_iff in Ha; destruct Ha as [Hal Ha]; rewrite Hal; simpl;
      try (apply IH; assumption).
    destruct a as [|[] a]; try discriminate. cbn [app]. apply IH; assumption.
Qed.

Lemma orderly_probe (install_dir prefix_dir : string) (n : nat) :
  orderly false (Launch install_dir prefix_dir :: sleeps n ++ [KillChild; KillStray])
  = true.
Proof.
  cbn [orderly negb andb]. induction n as [|n IH]; [reflexivity|].
  cbn [sleeps repeat app orderly andb]. exact IH.
Qed.

Section Whole.

Variable dec : string -> string.
Variable args : Args.

Lemma probe_events (env : ProbeEnv) (fuel : nat) (r : result Verdict)
    (ev : list Event) :
  quick_probe dec env (observe_timeout args) (renderer_stable_sec args)
    (black_pattern_sec args) fuel (install_dir args) (prefix_dir args)
  = Some (r, ev) ->
  ev = [] \/ exists n, ev = (Launch (install_dir args) (prefix_dir args)
                            :: sleeps n ++ [KillChild; KillStray])%list.
Proof.
  unfold quick_probe. destruct (negb _); [intros [= <- <-]; auto|].
  destruct (popen_error env); [intros [= <- <-]; auto|].
  destruct (probe_loop _ _ _ _ _ _ _ _) as [[v lev]|] eqn:Hl; [|discriminate].
  intros [= <- <-]. right.
  change unarmed with (timers_before dec env 0) in Hl.
  destruct (loop_decided _ _ _ _ _ _ _ _ _ Hl) as (k & _ & _ & _ & ->). eauto.
Qed.

Lemma run_version_orderly (fuel : nat) (venv : VersionEnv) (kind version : string)
    (ev : list Event) :
  run_version dec args fuel venv kind version = Some ev -> orderly false ev = true.
Proof.
  unfold run_version, try_version.
  destruct (download_error venv); [now intros [= <-]|].
  destruct (install_error venv); [now intros [= <-]|].
  destruct (quick_probe _ _ _ _ _ _ _ _) as [[r pev]|] eqn:Hp; [|discriminate].
  destruct (probe_events _ _ _ _ Hp) as [->|[n Hn]].
  - destruct r as [[status summary]|msg]; now intros [= <-].
  - assert (Ho : orderly false pev = true) by (rewrite Hn; apply orderly_probe).
    clear Hn Hp.
    destruct r as [[status summary]|msg]; intros [= <-];
      cbn [orderly negb andb app]; apply orderly_app; trivial.
Qed.

Lemma run_versions_orderly (fuel : nat) (world : nat -> VersionEnv)
    (requests : list (string * string)) (i : nat) (ev : list Event) :
  run_versions dec args fuel world i requests = Some ev -> orderly false ev = true.
Proof.
  revert i ev. induction requests as [|[kind version] rest IH]; intros i ev.
  - now intros [= <-].
  - cbn [run_versions].
    destruct (run_version _ _ _ _ _ _) as [ev1|] eqn:E1; [|discriminate].
    destruct (run_versions _ _ _ _ _ rest) as [ev2|] eqn:E2; [|discriminate].
    intros [= <-]. apply orderly_app; [eapply run_version_orderly, E1|eapply IH, E2].
Qed.

(** Whatever [main] does, it does in order: at most one child is alive at
    any time; while a child is alive the program only sleeps; each child
    is killed and the teardown helper called right after; downloads,
    installations and output happen only while no child is alive; and no
    child outlives the run. *)
Theorem main_runs_in_order (fuel : nat) (world : nat -> VersionEnv)
    (r : result unit) (ev : list Event) :
  main dec args fuel world = Some (r, ev) -> orderly false ev = true.
Proof.
  unfold main. destruct (parse_versions (versions args)); [|now intros [= <- <-]].
  destruct (run_versions _ _ _ _ _ _) as [rev|] eqn:E; [|discriminate].
  intros [= <- <-]. cbn [orderly negb andb].
  apply orderly_app; [eapply run_versions_orderly, E|reflexivity].
Qed.

(** An entry that does not parse stops [main] before it does anything:
    nothing is printed, no process is killed, nothing is downloaded, and
    the exception is that of the first such entry. *)
Theorem main_stops_at_bad_entry (good : list string) (bad : string)
    (rest : list string) (requests : list (string * string)) (msg : string)
    (fuel : nat) (world : nat -> VersionEnv) :
  versions args = (good ++ bad :: rest)%list ->
  map parse_version_entry good = map Ret requests ->
  parse_version_entry bad = Raise msg ->
  main dec args fuel world = Some (Raise msg, []).
Proof.
  intros Hv Hg Hb. unfold main.
  assert (E : parse_versions (versions args) = Raise msg).
  { apply parse_versions_raise. exists good, bad, rest, requests. auto. }
  now rewrite E.
Qed.

End Whole.

Lemma main_runs_in_order_witness :
  orderly false
    [Print header; KillStray; Download "wand" "12.0.3"; Install;
     Launch "/opt/wemod_bin" "/opt/wemod_prefix";
     KillChild; KillStray;
     Print "wand,12.0.3,TIMEOUT,no stable renderer within 0s (state={'main': 0; 'renderer': 0; 'gpu': 0; 'utility': 0})";
     KillStray]
  = true.
Proof.
  apply (main_runs_in_order decode_ascii
           {| versions := ["wand:12.0.3"];
              install_dir := "/opt/wemod_bin"; prefix_dir := "/opt/wemod_prefix";
              cache_dir := "/tmp/wand-probe-cache";
              observe_timeout := 0; renderer_stable_sec := 2;
              black_pattern_sec := 2 |}
           5 (fun _ => two_worlds 1) (Ret tt)).
  vm_compute. reflexivity.
Defined.

Lemma main_stops_at_bad_entry_witness :
  main decode_ascii
    {| versions := ["wand:12.0.3"; "wemod"; "wand:1"];
       install_dir := "/opt/wemod_bin"; prefix_dir := "/opt/wemod_prefix";
       cache_dir := "/tmp/wand-probe-cache";
       observe_timeout := 20; renderer_stable_sec := 2;
       black_pattern_sec := 2 |}
    100 two_worlds
  = Some (Raise "invalid version entry 'wemod', expected kind:version", []).
Proof.
  apply (main_stops_at_bad_entry decode_ascii _ ["wand:12.0.3"] "wemod" ["wand:1"]
           [("wand", "12.0.3")]); reflexivity.
Defined.

(** ** The records as a reader sees them *)

Lemma split_all_no_sep (sep : ascii) (s : string) :
  has_char sep s = false -> split_all sep s = [s].
Proof.
  induction s as [|c s IH]; simpl; [reflexivity|].
  destruct (Ascii.eqb c sep); simpl; [discriminate|].
  intros H. now rewrite IH.
Qed.

Lemma split_all_field (sep : ascii) (a b : string) :
  has_char sep a = false ->
  split_all sep (a ++ String sep b) = a :: split_all sep b.
Proof.
  induction a as [|c a IH]; simpl.
  - intros _. now rewrite Ascii.eqb_refl.
  - destruct (Ascii.eqb c sep); simpl; [discriminate|].
    intros H. now rewrite IH.
Qed.

Lemma replace_removes (a b : ascii) (s : string) :
  a <> b -> has_char a (replace a b s) = false.
Proof.
  intros Hab. induction s as [|c s IH]; simpl; [reflexivity|].
  rewrite IH, orb_false_r.
  destruct (Ascii.eqb_spec c a) as [->|Hc].
  - destruct (Ascii.eqb_spec b a); congruence.
  - destruct (Ascii.eqb_spec c a); congruence.
Qed.

Lemma record_fields (kind version status summary : string) :
  has_char comma kind = false -> has_char comma version = false ->
  has_char comma status = false ->
  split_all comma (record_line kind version status summary)
  = [kind; version; status; replace comma semicolon summary].
Proof.
  intros Hk Hv Hs. unfold record_line.
  change (kind ++ "," ++ version ++ "," ++ status ++ ","
          ++ replace comma semicolon summary)
    with (kind ++ String comma (version ++ String comma
            (status ++ String comma (replace comma semicolon summary)))).
  rewrite !split_all_field by assumption.
  rewrite split_all_no_sep; [reflexivity|]. apply replace_removes. discriminate.
Qed.


(** A record whose kind, version and status hold no comma reads back,
    split at its commas, as exactly four fields: the kind, the version,
    the status, and the summary with its commas turned into semicolons. *)
Theorem record_line_four_fields (kind version status summary : string) :
  has_char comma kind = false -> has_char comma version = false ->
  has_char comma status = false ->
  split_all comma (record_line kind version status summary)
  = [kind; version; status; replace comma semicolon summary].
Proof.
  intros Hk Hv Hs. unfold record_line.
  change (kind ++ "," ++ version ++ "," ++ status ++ ","
          ++ replace comma semicolon summary)
    with (kind ++ String comma (version ++ String comma
            (status ++ String comma (replace comma semicolon summary)))).
  rewrite !split_all_field by assumption.
  rewrite split_all_no_sep; [reflexivity|]. apply replace_removes. discriminate.
Qed.

Lemma record_line_four_fields_witness :
  split_all comma
    (record_line "wand" "12.0.3" "ERROR" "curl failed, exit status 22")
  = ["wand"; "12.0.3"; "ERROR"; replace comma semicolon "curl failed, exit status 22"].
Proof.
  apply record_line_four_fields; reflexivity.
Defined.

(** ** Package names *)

Lemma append_length (a b : string) :
  String.length (a ++ b) = String.length a + String.length b.
Proof. induction a as [|c a IH]; simpl; [reflexivity|]. now rewrite IH. Qed.

Lemma append_same_tail (a b t : string) : a ++ t = b ++ t -> a = b.
Proof.
  revert b. induction a as [|c a IH]; intros [|d b] H; simpl in H.
  - reflexivity.
  - apply (f_equal String.length) in H. simpl in H. rewrite append_length in H. lia.
  - apply (f_equal String.length) in H. simpl in H. rewrite append_length in H. lia.
  - injection H as -> H. f_equal. now apply IH.
Qed.

Lemma url_for_name (kind version : string) :
  url_for kind version = base ++ nupkg_name kind version.
Proof.
  unfold url_for, nupkg_name. destruct (String.eqb kind "wand"); reflexivity.
Qed.

(** The URL fetched is the release directory followed by the name of the
    cached file, and two requests share a cached file name, or a URL, only
    when they are the same request: same kind, of wand and wemod, and same
    version. *)
Theorem package_names_distinct (kind version kind' version' : string) :
  known_kind kind = true -> known_kind kind' = true ->
  url_for kind version = base ++ nupkg_name kind version
  /\ (nupkg_name kind version = nupkg_name kind' version'
      -> kind = kind' /\ version = version')
  /\ (url_for kind version = url_for kind' version'
      -> kind = kind' /\ version = version').
Proof.
  intros Hk Hk'.
  assert (Hname : nupkg_name kind version = nupkg_name kind' version'
                  -> kind = kind' /\ version = version').
  { apply known_kind_cases in Hk, Hk'.
    destruct Hk as [->| ->], Hk' as [->| ->]; unfold nupkg_name; simpl;
      intros H; try discriminate H; injection H as H;
      apply append_same_tail in H; auto. }
  split; [apply url_for_name|]. split; [exact Hname|].
  rewrite !url_for_name. unfold base. intros H.
  apply Hname. simpl in H. now injection H.
Qed.

Lemma package_names_distinct_witness :
  url_for "wand" "12.0.3" = base ++ nupkg_name "wand" "12.0.3"
  /\ (nupkg_name "wand" "12.0.3" = nupkg_name "wemod" "11.6.0"
      -> "wand" = "wemod" /\ "12.0.3" = "11.6.0")
  /\ (url_for "wand" "12.0.3" = url_for "wemod" "11.6.0"
      -> "wand" = "wemod" /\ "12.0.3" = "11.6.0").
Proof.
  apply (package_names_distinct "wand" "12.0.3" "wemod" "11.6.0"); reflexivity.
Defined.

(** ** The cache of packages *)

Section Cache.

Variable joinpath : string -> string -> string.

Local Notation target cache_dir kind version :=
  (cached_nupkg_path joinpath cache_dir kind version).

Lemma download_hit (fs : Files) (denv : DownloadEnv)
    (cache_dir kind version : string) (size : Z) :
  mkdir_error denv = None ->
  fs (target cache_dir kind version) = Some size -> (0 < size)%Z ->
  download_if_needed joinpath fs denv cache_dir kind version
  = (Ret (target cache_dir kind version), [], fs).
Proof.
  intros Hm Hf Hs. unfold download_if_needed. rewrite Hm, Hf.
  apply Z.ltb_lt in Hs. now rewrite Hs.
Qed.

Lemma download_miss (fs : Files) (denv : DownloadEnv)
    (cache_dir kind version : string) :
  mkdir_error denv = None ->
  (forall size, fs (target cache_dir kind version) = Some size -> (size <= 0)%Z) ->
  download_if_needed joinpath fs denv cache_dir kind version
  = match curl_run denv with
    | CurlDone size =>
        (Ret (target cache_dir kind version),
         [curl_argv kind version (target cache_dir kind version)],
         write_file fs (target cache_dir kind version) size)
    | CurlFailed msg leftover =>
        (Raise msg,
         [curl_argv kind version (target cache_dir kind version)],
         fun p => if String.eqb p (target cache_dir kind version)
                  then leftover else fs p)
    end.
Proof.
  intros Hm Hf. unfold download_if_needed. rewrite Hm.
  destruct (fs (target cache_dir kind version)) as [size|] eqn:E; [|reflexivity].
  specialize (Hf size eq_refl). apply Z.ltb_ge in Hf. now rewrite Hf.
Qed.

(** A package is downloaded once: when the cache has no file for it, or
    an empty one, and curl ends well leaving a file that is not empty,
    the call runs curl once, for the URL of the package and into its cache
    path, and the next call for the same package returns the same path
    without running anything, whatever curl would then do. *)
Theorem download_then_cached (fs : Files) (denv denv' : DownloadEnv)
    (cache_dir kind version : string) (size : Z) :
  mkdir_error denv = None -> mkdir_error denv' = None ->
  (forall old, fs (target cache_dir kind version) = Some old -> (old <= 0)%Z) ->
  curl_run denv = CurlDone size -> (0 < size)%Z ->
  exists fs',
    download_if_needed joinpath fs denv cache_dir kind version
    = (Ret (target cache_dir kind version),
       [["curl"; "-fsSL"; "-A"; user_agent; url_for kind version; "-o";
         target cache_dir kind version]], fs')
    /\ download_if_needed joinpath fs' denv' cache_dir kind version
       = (Ret (target cache_dir kind version), [], fs').
Proof.
  intros Hm Hm' Hmiss Hc Hs.
  exists (write_file fs (target cache_dir kind version) size).
  rewrite download_miss, Hc by assumption. split; [reflexivity|].
  apply (download_hit _ _ _ _ _ size); trivial.
  unfold write_file. now rewrite String.eqb_refl.
Qed.

(** A download that fails is not always tried again: when curl raises but
    leaves a file that is not empty at the cache path, the call raises, and
    the next call for the same package returns that file as the package,
    without running curl. *)
Theorem failed_download_leftover_trusted (fs : Files) (denv denv' : DownloadEnv)
    (cache_dir kind version msg : string) (size : Z) :
  mkdir_error denv = None -> mkdir_error denv' = None ->
  (forall old, fs (target cache_dir kind version) = Some old -> (old <= 0)%Z) ->
  curl_run denv = CurlFailed msg (Some size) -> (0 < size)%Z ->
  exists runs fs',
    download_if_needed joinpath fs denv cache_dir kind version
    = (Raise msg, runs, fs')
    /\ download_if_needed joinpath fs' denv' cache_dir kind version
       = (Ret (target cache_dir kind version), [], fs').
Proof.
  intros Hm Hm' Hmiss Hc Hs.
  rewrite download_miss, Hc by assumption. eexists _, _. split; [reflexivity|].
  apply (download_hit _ _ _ _ _ size); trivial.
  now rewrite String.eqb_refl.
Qed.


End Cache.

Lemma download_then_cached_witness :
  exists fs',
    download_if_needed slash_join no_files
      {| mkdir_error := None; curl_run := CurlDone 1024 |}
      "/tmp/wand-probe-cache" "wand" "12.0.3"
    = (Ret (cached_nupkg_path slash_join "/tmp/wand-probe-cache" "wand" "12.0.3"),
       [["curl"; "-fsSL"; "-A"; user_agent; url_for "wand" "12.0.3"; "-o";
         cached_nupkg_path slash_join "/tmp/wand-probe-cache" "wand" "12.0.3"]],
       fs')
    /\ download_if_needed slash_join fs'
         {| mkdir_error := None; curl_run := CurlFailed "offline" None |}
         "/tmp/wand-probe-cache" "wand" "12.0.3"
       = (Ret (cached_nupkg_path slash_join "/tmp/wand-probe-cache" "wand" "12.0.3"),
          [], fs').
Proof.
  apply (download_then_cached slash_join no_files
           {| mkdir_error := None; curl_run := CurlDone 1024 |}
           {| mkdir_error := None; curl_run := CurlFailed "offline" None |}
           "/tmp/wand-probe-cache" "wand" "12.0.3" 1024).
  - reflexivity.
  - reflexivity.
  - intros old H. discriminate H.
  - reflexivity.
  - reflexivity.
Defined.

Lemma failed_download_leftover_trusted_witness :
  exists runs fs',
    download_if_needed slash_join no_files
      {| mkdir_error := None; curl_run := CurlFailed "exit status 18" (Some 512%Z) |}
      "/tmp/wand-probe-cache" "wand" "12.0.3"
    = (Raise "exit status 18", runs, fs')
    /\ download_if_needed slash_join fs'
         {| mkdir_error := None; curl_run := CurlDone 1024 |}
         "/tmp/wand-probe-cache" "wand" "12.0.3"
       = (Ret (cached_nupkg_path slash_join "/tmp/wand-probe-cache" "wand" "12.0.3"),
          [], fs').
Proof.
  apply (failed_download_leftover_trusted slash_join no_files
           {| mkdir_error := None; curl_run := CurlFailed "exit status 18" (Some 512%Z) |}
           {| mkdir_error := None; curl_run := CurlDone 1024 |}
           "/tmp/wand-probe-cache" "wand" "12.0.3" "exit status 18" 512).
  - reflexivity.
  - reflexivity.
  - intros old H. discriminate H.
  - reflexivity.
  - reflexivity.
Defined.


(** ** The payload picked from a package *)

Lemma leb_refl (a : string) : String.leb a a = true.
Proof. destruct (String.leb_total a a); assumption. Qed.

Lemma leb_trans (a b c : string) :
  String.leb a b = true -> String.leb b c = true -> String.leb a c = true.
Proof.
  unfold String.leb. revert b c.
  induction a as [|x a IH]; intros [|y b] [|z c]; simpl; trivial; try discriminate.
  unfold Ascii.compare.
  destruct (N.compare_spec (N_of_ascii x) (N_of_ascii y)) as [Exy|Exy|Exy],
           (N.compare_spec (N_of_ascii y) (N_of_ascii z)) as [Eyz|Eyz|Eyz],
           (N.compare_spec (N_of_ascii x) (N_of_ascii z)) as [Exz|Exz|Exz];
    trivial; try discriminate; try lia.
  apply IH.
Qed.

Lemma insert_name_in (x y : string) (l : list string) :
  In y (insert_name x l) <-> y = x \/ In y l.
Proof.
  induction l as [|z l IH]; simpl; [intuition|].
  destruct (String.leb x z); simpl; [intuition|]. rewrite IH. intuition.
Qed.

Lemma sorted_in (y : string) (l : list string) : In y (sorted l) <-> In y l.
Proof.
  induction l as [|x l IH]; simpl; [reflexivity|].
  rewrite insert_name_in, IH. intuition.
Qed.

Lemma insert_name_head (x r : string) (l t : list string) :
  (forall y u, l = y :: u -> forall n, In n l -> String.leb y n = true) ->
  insert_name x l = r :: t ->
  forall n, In n (x :: l) -> String.leb r n = true.
Proof.
  intros Hl. destruct l as [|y u]; simpl.
  - intros [= <- <-] n [<-|[]]. apply leb_refl.
  - specialize (Hl y u eq_refl).
    destruct (String.leb x y) eqn:E.
    + intros [= <- <-] n [<-|Hn]; [apply leb_refl|].
      apply (leb_trans x y n); [exact E|now apply Hl].
    + intros [= <- _] n [<-|Hn]; [|now apply Hl].
      destruct (String.leb_total x y) as [H|H]; [congruence|exact H].
Qed.

Lemma sorted_head_least (l : list string) (r : string) (t : list string) :
  sorted l = r :: t -> forall n, In n l -> String.leb r n = true.
Proof.
  revert r t. induction l as [|x l IH]; intros r t; simpl; [discriminate|].
  intros H n Hn.
  assert (Hn' : In n (x :: sorted l)).
  { destruct Hn as [<-|Hn]; [now left|right; now apply sorted_in]. }
  apply (insert_name_head x r (sorted l) t); [|exact H|exact Hn'].
  intros y u Hy m Hm. apply (IH y u Hy). now apply sorted_in.
Qed.

(** Of the entries of [lib] whose names begin with net the installation
    takes the one that sorts first, and it raises "no lib/net* payload in
    nupkg" exactly when there is none. *)
Theorem net_root_is_first (lib_names : list string) :
  (forall r, net_root lib_names = Ret r ->
     In r lib_names /\ prefix "net" r = true
     /\ forall n, In n lib_names -> prefix "net" n = true ->
          String.leb r n = true)
  /\ (forall msg, net_root lib_names = Raise msg ->
        msg = "no lib/net* payload in nupkg"
        /\ forall n, In n lib_names -> prefix "net" n = false)
  /\ ((forall n, In n lib_names -> prefix "net" n = false) ->
      net_root lib_names = Raise "no lib/net* payload in nupkg").
Proof.
  unfold net_root, net_roots. split; [|split].
  - intros r. destruct (sorted (filter (prefix "net") lib_names)) as [|r' t] eqn:E;
      [discriminate|]. intros [= <-].
    assert (Hin : In r' (filter (prefix "net") lib_names)).
    { apply sorted_in. rewrite E. now left. }
    apply filter_In in Hin. destruct Hin as [Hin Hp]. repeat split; trivial.
    intros n Hn Hnp. apply (sorted_head_least _ _ _ E). apply filter_In. auto.
  - intros msg. destruct (sorted (filter (prefix "net") lib_names)) as [|r' t] eqn:E;
      [|discriminate]. intros [= <-]. split; [reflexivity|].
    intros n Hn. destruct (prefix "net" n) eqn:Hp; [|reflexivity].
    assert (Hin : In n (sorted (filter (prefix "net") lib_names)))
      by (apply sorted_in, filter_In; auto).
    rewrite E in Hin. destruct Hin.
  - intros Hnone.
    destruct (sorted (filter (prefix "net") lib_names)) as [|r' t] eqn:E;
      [reflexivity|].
    assert (Hin : In r' (filter (prefix "net") lib_names)).
    { apply sorted_in. rewrite E. now left. }
    apply filter_In in Hin. destruct Hin as [Hin Hp].
    rewrite (Hnone r' Hin) in Hp. discriminate.
Qed.

Lemma net_root_is_first_witness :
  (In "net45" ["netstandard2.0"; "native"; "net48"; "net45"]
   /\ prefix "net" "net45" = true
   /\ forall n, In n ["netstandard2.0"; "native"; "net48"; "net45"] ->
        prefix "net" n = true -> String.leb "net45" n = true)
  /\ net_root ["native"; "content"] = Raise "no lib/net* payload in nupkg".
Proof.
  destruct (net_root_is_first ["netstandard2.0"; "native"; "net48"; "net45"])
    as (H1 & _ & _).
  destruct (net_root_is_first ["native"; "content"]) as (_ & _ & H3).
  split.
  - apply (H1 "net45"). reflexivity.
  - apply H3. intros n [<-|[<-|[]]]; reflexivity.
Defined.

(** ** The table printed *)

Lemma status_no_comma (status : string) :
  is_status status -> has_char comma status = false.
Proof. intros [->|[->|[->| ->]]]; reflexivity. Qed.

Section Printed.

Variable dec : string -> string.
Variable args : Args.

Lemma probe_status (env : ProbeEnv) (fuel : nat) (status detail : string)
    (ev : list Event) :
  quick_probe dec env (observe_timeout args) (renderer_stable_sec args)
    (black_pattern_sec args) fuel (install_dir args) (prefix_dir args)
  = Some (Ret (status, detail), ev) ->
  is_status status.
Proof.
  unfold quick_probe, is_status. destruct (negb _); [intros [= <- <- <-]; auto|].
  destruct (popen_error env); [discriminate|].
  destruct (probe_loop _ _ _ _ _ _ _ _) as [[v lev]|] eqn:Hl; [|discriminate].
  intros [= -> <-].
  change unarmed with (timers_before dec env 0) in Hl.
  destruct (loop_decided _ _ _ _ _ _ _ _ _ Hl) as (k & _ & _ & Hd & _).
  destruct Hd as [[_ Hv]|[_ Hv]].
  - destruct (verdict_at_cases _ _ _ _ _ _ Hv) as [[[= -> _] _]|[[= -> _] _]]; auto.
  - injection Hv as -> _. auto.
Qed.

Lemma run_version_prints (fuel : nat) (venv : VersionEnv) (kind version : string)
    (ev : list Event) :
  run_version dec args fuel venv kind version = Some ev ->
  exists status summary,
    printed ev = [record_line kind version status summary] /\ is_status status.
Proof.
  unfold run_version, try_version, is_status.
  destruct (download_error venv) as [msg|];
    [intros [= <-]; exists "ERROR", msg; auto 6|].
  destruct (install_error venv) as [msg|];
    [intros [= <-]; exists "ERROR", msg; auto 6|].
  destruct (quick_probe _ _ _ _ _ _ _ _) as [[r pev]|] eqn:Hp; [|discriminate].
  pose proof (printed_probe _ _ _ _ _ _ Hp) as Hpr.
  destruct r as [[status summary]|msg]; intros [= <-].
  - exists status, summary. split; [|exact (probe_status _ _ _ _ _ Hp)].
    simpl. now rewrite printed_app, Hpr.
  - exists "ERROR", msg. split; [|auto 6].
    simpl. now rewrite printed_app, Hpr.
Qed.

Lemma run_versions_prints (fuel : nat) (world : nat -> VersionEnv)
    (requests : list (string * string)) (i : nat) (ev : list Event) :
  run_versions dec args fuel world i requests = Some ev ->
  Forall2 (fun request line =>
             exists status summary,
               line = record_line (fst request) (snd request) status summary
               /\ is_status status)
          requests (printed ev).
Proof.
  revert i ev. induction requests as [|[kind version] rest IH]; intros i ev.
  - intros [= <-]. constructor.
  - cbn [run_versions].
    destruct (run_version _ _ _ _ _ _) as [ev1|] eqn:E1; [|discriminate].
    destruct (run_versions _ _ _ _ _ rest) as [ev2|] eqn:E2; [|discriminate].
    intros [= <-]. rewrite printed_app.
    destruct (run_version_prints _ _ _ _ _ E1) as (status & summary & -> & Hs).
    constructor; [exists status, summary; auto|]. eapply IH, E2.
Qed.

(** Whenever [main] returns from a run, it has printed the header and then
    one record per request, in order, each beginning with the kind and the
    version of its request and a status of the four; and when no version
    holds a comma, every line printed reads back as exactly four fields. *)
Theorem main_prints_a_table (fuel : nat) (world : nat -> VersionEnv)
    (requests : list (string * string)) (ev : list Event) :
  parse_versions (versions args) = Ret requests ->
  main dec args fuel world = Some (Ret tt, ev) ->
  exists records,
    printed ev = header :: records
    /\ Forall2 (fun request line =>
                  exists status summary,
                    line = record_line (fst request) (snd request) status summary
                    /\ is_status status)
               requests records
    /\ ((forall request, In request requests ->
           has_char comma (snd request) = false) ->
        forall line, In line (printed ev) ->
          List.length (split_all comma line) = 4).
Proof.
  intros Hparse. unfold main. rewrite Hparse.
  destruct (run_versions _ _ _ _ _ _) as [rev|] eqn:E; [|discriminate].
  intros [= <-]. pose proof (run_versions_prints _ _ _ _ _ E) as Hrec.
  exists (printed rev). cbn [printed]. rewrite printed_app. cbn [printed].
  rewrite app_nil_r. split; [reflexivity|]. split; [exact Hrec|].
  intros Hv line [<-|Hin]; [reflexivity|].
  assert (Hkinds : Forall (fun request => known_kind (fst request) = true) requests).
  { apply parse_versions_ret in Hparse. clear -Hparse.
    revert requests Hparse. induction (versions args) as [|e l IH];
      intros [|[k v] rs] Hm; try discriminate; constructor.
    - simpl in Hm. injection Hm as He _.
      destruct (parse_ret_inv _ _ _ He) as ([->| ->] & _); reflexivity.
    - simpl in Hm. injection Hm as _ Hm. now apply IH. }
  clear E Hparse. induction Hrec as [|[k v] l rs ls (st & sm & -> & Hs) _ IH].
  - destruct Hin.
  - inversion Hkinds as [|? ? Hk Hks]; subst.
    destruct Hin as [<-|Hin].
    + simpl fst; simpl snd. rewrite record_fields; [reflexivity| | |].
      * apply known_kind_cases in Hk. simpl in Hk. destruct Hk as [->| ->]; reflexivity.
      * apply (Hv (k, v)). now left.
      * now apply status_no_comma.
    + apply IH; trivial. intros request Hr. apply Hv. now right.
Qed.

End Printed.

Lemma main_prints_a_table_witness :
  exists records,
    printed (match main decode_ascii two_requests 100 two_worlds with
             | Some (_, ev) => ev
             | None => []
             end)
    = header :: records
    /\ Forall2 (fun request line =>
                  exists status summary,
                    line = record_line (fst request) (snd request) status summary
                    /\ is_status status)
               [("wand", "12.0.3"); ("wemod", "11.6.0")] records
    /\ ((forall request, In request [("wand", "12.0.3"); ("wemod", "11.6.0")] ->
           has_char comma (snd request) = false) ->
        forall line,
          In line (printed (match main decode_ascii two_requests 100 two_worlds with
                            | Some (_, ev) => ev
                            | None => []
                            end)) ->
          List.length (split_all comma line) = 4).
Proof.
  apply (main_prints_a_table decode_ascii two_requests 100 two_worlds).
  - reflexivity.
  - vm_compute. reflexivity.
Defined.
